(** * LediGlow demo auth server ([server.js]): model and verified properties

    The four Express handlers ([POST /api/signup], [POST /api/login],
    [GET /api/me], [POST /api/logout]) are embedded as pure functions from
    a request and the two in-memory stores to a response and the new
    stores.  What the handlers read from the outside world (the clock,
    [Math.random], the salt bcrypt draws) is passed in as an explicit
    environment; bcrypt itself and the engine's number printing are
    parameters of the development.

    The handlers come in three layers: on bodies whose fields are strings
    or missing, each request served to completion ([signup], [login],
    [me], [logout], [handle]); split at their [await]s and interleaved by
    the event loop ([signup_begin], [signup_resume], [login_begin],
    [login_resume], [turn]); and on arbitrary JSON bodies with
    JavaScript's conversions ([Wire]). *)

From stdpp Require Import gmap list strings pretty.
From Stdlib Require Import Ascii.

Open Scope Z_scope.

(** ** JavaScript strings

    A JavaScript string is a sequence of UTF-16 code units; [length] counts
    code units and a regular expression without the [u] flag matches code
    unit by code unit. *)

Abbreviation jsstring := (list N).

(** The string literal [s] of the source, as code units (ASCII text). *)
Definition js (s : string) : jsstring :=
  N_of_ascii <$> String.list_ascii_of_string s.

(** [!s] for a string: only the empty string is falsy. *)
Definition truthy_str (s : jsstring) : bool :=
  match s with
  | [] => false
  | _ :: _ => true
  end.

(** A value that is either [undefined] (a missing property) or a string.
    [!v] is [negb (truthy v)]. *)
Definition truthy (v : option jsstring) : bool :=
  match v with
  | None => false
  | Some s => truthy_str s
  end.

(** ** Regular expressions

    The fragment of the regular expression language that [server.js] uses:
    literal characters, the class [\S], concatenation and [+].  Matching is
    by derivatives; [test] is [RegExp.prototype.test] for a pattern
    enclosed in [^] and [$]. *)

Module Regex.

(** [\s]: WhiteSpace and LineTerminator code units of ECMAScript. *)
Definition is_space (c : N) : bool :=
  ((9 <=? c) && (c <=? 13) || (c =? 32) || (c =? 160) || (c =? 5760)
   || (8192 <=? c) && (c <=? 8202) || (c =? 8232) || (c =? 8233)
   || (c =? 8239) || (c =? 8287) || (c =? 12288) || (c =? 65279))%N.

Inductive cls : Type :=
| Lit (c : N)        (* a literal character, e.g. [@] or [\.] *)
| NonSpace.          (* [\S] *)

Definition cls_mem (k : cls) (c : N) : bool :=
  match k with
  | Lit d => (c =? d)%N
  | NonSpace => negb (is_space c)
  end.

Inductive re : Type :=
| Void                     (* matches nothing *)
| Eps                      (* matches the empty string *)
| Chr (k : cls)
| Cat (r1 r2 : re)
| Alt (r1 r2 : re)
| Star (r : re).

(** [r+] *)
Definition Plus (r : re) : re := Cat r (Star r).

Fixpoint nullable (r : re) : bool :=
  match r with
  | Void => false
  | Eps => true
  | Chr _ => false
  | Cat r1 r2 => nullable r1 && nullable r2
  | Alt r1 r2 => nullable r1 || nullable r2
  | Star _ => true
  end.

Fixpoint deriv (c : N) (r : re) : re :=
  match r with
  | Void => Void
  | Eps => Void
  | Chr k => if cls_mem k c then Eps else Void
  | Cat r1 r2 =>
      if nullable r1
      then Alt (Cat (deriv c r1) r2) (deriv c r2)
      else Cat (deriv c r1) r2
  | Alt r1 r2 => Alt (deriv c r1) (deriv c r2)
  | Star r1 => Cat (deriv c r1) (Star r1)
  end.

Fixpoint test (r : re) (s : jsstring) : bool :=
  match s with
  | [] => nullable r
  | c :: s' => test (deriv c r) s'
  end.

(** The language of a regular expression, for the correctness of
    [test]. *)
Inductive matches : re → jsstring → Prop :=
| m_eps : matches Eps []
| m_chr k c : cls_mem k c = true → matches (Chr k) [c]
| m_cat r1 r2 s1 s2 :
    matches r1 s1 → matches r2 s2 → matches (Cat r1 r2) (s1 ++ s2)
| m_alt_l r1 r2 s : matches r1 s → matches (Alt r1 r2) s
| m_alt_r r1 r2 s : matches r2 s → matches (Alt r1 r2) s
| m_star_nil r : matches (Star r) []
| m_star_cons r s1 s2 :
    matches r s1 → matches (Star r) s2 → matches (Star r) (s1 ++ s2).

End Regex.

(** [/^\S+@\S+\.\S+$/], the e-mail pattern of [POST /api/signup]. *)
Definition email_re : Regex.re :=
  Regex.Cat (Regex.Plus (Regex.Chr Regex.NonSpace))
    (Regex.Cat (Regex.Chr (Regex.Lit 64))
       (Regex.Cat (Regex.Plus (Regex.Chr Regex.NonSpace))
          (Regex.Cat (Regex.Chr (Regex.Lit 46))
             (Regex.Plus (Regex.Chr Regex.NonSpace))))).

(** ** The stores *)

(** [users[email] = { id, email, passwordHash, createdAt }] *)
Record user : Type := User {
  id : jsstring;
  email : jsstring;
  passwordHash : jsstring;
  createdAt : jsstring
}.

(** [users] and [sessions] are objects without a prototype
    ([Object.create(null)]): plain finite maps from property names. *)
Record state : Type := State {
  users : gmap jsstring user;
  sessions : gmap jsstring jsstring
}.

Definition init : state := State ∅ ∅.

(** ** Requests, environment and responses *)

(** The JSON body of a signup or login request.  Each field is a string
    or missing ([undefined]); the handlers are studied on such bodies, and
    JSON values of other types are not represented. *)
Record body : Type := Body {
  b_email : option jsstring;
  b_password : option jsstring
}.

(** [req.body || {}] *)
Definition body_or_empty (b : option body) : body :=
  match b with
  | Some flds => flds
  | None => Body None None
  end.

(** What one request reads from outside the program. *)
Record env : Type := Env {
  date_now : Z;            (* [Date.now()], milliseconds *)
  iso_now : jsstring;      (* [new Date().toISOString()] *)
  salt : list N;           (* the salt [bcrypt.hash] draws *)
  random : Z               (* [Math.random()], as its binary64 bit pattern *)
}.

Inductive jsval : Type :=
| JBool (b : bool)
| JStr (s : jsstring).

Inductive cookie_action : Type :=
| NoCookie
| SetSid (sid : jsstring)   (* [res.cookie('sid', sid, {httpOnly, sameSite:'lax'})] *)
| ClearSid.                 (* [res.clearCookie('sid')] *)

Record response : Type := Response {
  status : Z;
  cookie : cookie_action;
  json : list (string * jsval)
}.

(** One property [key: value] of an object literal. *)
Definition prop (key : string) (v : jsval) : string * jsval := (key, v).

(** [res.status(code).json(obj)]. *)
Definition reply (code : Z) (obj : list (string * jsval)) : response :=
  Response code NoCookie obj.

(** [{ ok:false, field:fld, message:msg }], without [field] when the
    source gives none. *)
Definition failure (fld : option string) (msg : string) : list (string * jsval) :=
  [prop "ok" (JBool false)]
    ++ match fld with
       | Some f => [prop "field" (JStr (js f))]
       | None => []
       end
    ++ [prop "message" (JStr (js msg))].

(** [res.cookie('sid', sid, ...); return res.json({ ok:true, redirect })]. *)
Definition redirected (sid : jsstring) : response :=
  Response 200 (SetSid sid)
    [prop "ok" (JBool true); prop "redirect" (JStr (js "/dashboard.html"))].

(** ** What the program takes from its platform *)

(** The [bcrypt] package.  [bcrypt_hash data rounds salt] is
    [await bcrypt.hash(data, rounds)] when the package draws [salt];
    [bcrypt_compare data hash] is [await bcrypt.compare(data, hash)].
    [None] stands for a rejected promise, which the handlers catch. *)
Class Bcrypt : Type := {
  bcrypt_hash : jsstring → Z → list N → option jsstring;
  bcrypt_compare : jsstring → jsstring → option bool
}.

(** [Number.prototype.toString(36)] on a binary64 value given by its bit
    pattern; ECMAScript leaves the digits for a radix other than 10 to the
    engine. *)
Class Engine : Type := {
  number_toString36 : Z → jsstring
}.

(** The binary64 values [Math.random()] can return, those in [0, 1), are
    the bit patterns [0 .. 0x3FEFFFFFFFFFFFFF]. *)
Definition unit_doubles : Z := 0x3FF0000000000000.

(** ** The program *)

Section Server.

Context {B : Bcrypt} {E : Engine}.

(** [function createSid() { return 's' + Math.random().toString(36).slice(2); }] *)
Definition createSid (r : Z) : jsstring :=
  js "s" ++ drop 2 (number_toString36 r).

Definition invalid_email : list (string * jsval) :=
  failure (Some "email") "Invalid email".
Definition password_too_short : list (string * jsval) :=
  failure (Some "password") "Password too short".
Definition already_registered : list (string * jsval) :=
  failure (Some "email") "Email already registered".
Definition server_error : list (string * jsval) :=
  failure None "Server error".
Definition missing_fields : list (string * jsval) :=
  failure None "Missing fields".
Definition not_authenticated : list (string * jsval) :=
  failure None "Not authenticated".

(** [POST /api/signup].  The handler is run to completion: no other
    request is served while it awaits [bcrypt.hash]. *)
Definition signup (b : option body) (e : env) (st : state) : response * state :=
  let flds := body_or_empty b in
  match b_email flds with
  | None => (reply 400 invalid_email, st)
  | Some email =>
      if negb (truthy_str email) || negb (Regex.test email_re email)
      then (reply 400 invalid_email, st)
      else
        match b_password flds with
        | None => (reply 400 password_too_short, st)
        | Some password =>
            if negb (truthy_str password) || (Z.of_nat (length password) <? 8)
            then (reply 400 password_too_short, st)
            else
              match users st !! email with
              | Some _ => (reply 409 already_registered, st)
              | None =>
                  match bcrypt_hash password 12 (salt e) with
                  | None => (reply 500 server_error, st)
                  | Some hash =>
                      let u := {| id := js (pretty (date_now e));
                                  email := email;
                                  passwordHash := hash;
                                  createdAt := iso_now e |} in
                      let users' := <[email := u]> (users st) in
                      let sid := createSid (random e) in
                      (redirected sid,
                       {| users := users';
                          sessions := <[sid := email]> (sessions st) |})
                  end
              end
        end
  end.

(** [POST /api/login]. *)
Definition login (b : option body) (e : env) (st : state) : response * state :=
  let flds := body_or_empty b in
  match b_email flds, b_password flds with
  | Some email, Some password =>
      if negb (truthy_str email) || negb (truthy_str password)
      then (reply 400 missing_fields, st)
      else
        match users st !! email with
        | None =>
            (reply 401 (failure (Some "email") "Invalid credentials"), st)
        | Some u =>
            match bcrypt_compare password (passwordHash u) with
            | None => (reply 500 server_error, st)
            | Some false =>
                (reply 401 (failure (Some "password") "Invalid credentials"), st)
            | Some true =>
                let sid := createSid (random e) in
                (redirected sid,
                 {| users := users st;
                    sessions := <[sid := email]> (sessions st) |})
            end
        end
  | _, _ => (reply 400 missing_fields, st)
  end.

(** [GET /api/me]; [sid] is [req.cookies && req.cookies.sid]. *)
Definition me (sid : option jsstring) (st : state) : response :=
  match sid with
  | None => reply 401 not_authenticated
  | Some sid =>
      if negb (truthy_str sid) || negb (truthy (sessions st !! sid))
      then reply 401 not_authenticated
      else
        match sessions st !! sid with
        | None => reply 401 not_authenticated
        | Some owner =>              (* [const email = sessions[sid]] *)
            match users st !! owner with
            | None => reply 401 not_authenticated
            | Some u =>
                Response 200 NoCookie
                  [prop "ok" (JBool true);
                   prop "email" (JStr (email u));
                   prop "id" (JStr (id u))]
            end
        end
  end.

(** [POST /api/logout]. *)
Definition logout (sid : option jsstring) (st : state) : response * state :=
  match sid with
  | Some sid =>
      if truthy_str sid
      then (Response 200 ClearSid [prop "ok" (JBool true)],
            {| users := users st; sessions := delete sid (sessions st) |})
      else (Response 200 NoCookie [prop "ok" (JBool true)], st)
  | None => (Response 200 NoCookie [prop "ok" (JBool true)], st)
  end.

(** ** Runs of the server *)

Inductive request : Type :=
| Signup (b : option body) (e : env)
| Login (b : option body) (e : env)
| Me (sid : option jsstring)
| Logout (sid : option jsstring).

Definition handle (rq : request) (st : state) : response * state :=
  match rq with
  | Signup b e => signup b e st
  | Login b e => login b e st
  | Me sid => (me sid st, st)
  | Logout sid => logout sid st
  end.

(** The stores after serving the requests [rqs] in order. *)
Definition run (rqs : list request) (st : state) : state :=
  foldl (λ s rq, (handle rq s).2) st rqs.

(** The states the server can be in: it starts with both stores empty
    and serves one request after the other. *)
Inductive reachable : state → Prop :=
| reach_init : reachable init
| reach_step st rq : reachable st → reachable (handle rq st).2.

End Server.

(** ** Definitions used to state the properties *)

(** The e-mail normalisation the specification speaks of, as letter-case
    folding of ASCII letters.  [server.js] has no such step: it uses the
    e-mail string as received. *)
Definition spec_normalize (s : jsstring) : jsstring :=
  (λ c, if (65 <=? c) && (c <=? 90) then c + 32 else c)%N <$> s.

(** A token [createSid] can return: its value at some result of
    [Math.random()]. *)
Definition is_token {E : Engine} (t : jsstring) : Prop :=
  ∃ r, 0 ≤ r < unit_doubles ∧ t = createSid r.

(** Stand-ins for the platform, to run the model on concrete requests:
    a bcrypt that keeps the password behind a fixed prefix, and a number
    printer that writes the bit pattern in decimal after ["0."]. *)
Definition demo_bcrypt : Bcrypt := {|
  bcrypt_hash data _ _ := Some (js "$2b$12$" ++ data);
  bcrypt_compare data hash := Some (bool_decide (hash = js "$2b$12$" ++ data))
|}.

Definition demo_engine : Engine := {|
  number_toString36 r := js "0." ++ js (pretty r)
|}.

(** What the handlers rely on from bcrypt: hashing a string succeeds, and
    a hash verifies against the data it was computed from. *)
Class BcryptSpec (B : Bcrypt) : Prop := {
  hash_succeeds data rounds s : is_Some (bcrypt_hash data rounds s);
  compare_hash data rounds s h :
    bcrypt_hash data rounds s = Some h → bcrypt_compare data h = Some true
}.

(** [obj[key]] on a response body. *)
Fixpoint json_get (key : string) (obj : list (string * jsval)) : option jsval :=
  match obj with
  | [] => None
  | (k, v) :: rest => if bool_decide (k = key) then Some v else json_get key rest
  end.

(** The e-mail field has the address shape the signup handler asks for. *)
Definition valid_email (v : option jsstring) : bool :=
  match v with
  | Some s => Regex.test email_re s
  | None => false
  end.

(** The password field is present with at least 8 code units. *)
Definition password_ok (v : option jsstring) : bool :=
  match v with
  | Some s => 8 <=? Z.of_nat (length s)
  | None => false
  end.

(** The body [{ email, password }] with both fields given. *)
Definition credentials (email password : jsstring) : option body :=
  Some (Body (Some email) (Some password)).

Definition demo_env : env :=
  {| date_now := 1700000000000;
     iso_now := js "2023-11-14T22:13:20.000Z";
     salt := [];
     random := 42 |}.

(** A later request: the clock has advanced and [Math.random] has drawn
    another value. *)
Definition demo_env_later : env :=
  {| date_now := 1700000000750;
     iso_now := js "2023-11-14T22:13:20.750Z";
     salt := [7%N];
     random := 43 |}.

(** Every account is stored under its own e-mail, and that e-mail has
    passed the signup pattern. *)
Definition keyed_by_email (st : state) : Prop :=
  ∀ k u, users st !! k = Some u →
    email u = k ∧ Regex.test email_re k = true.

(** The account a successful signup stores. *)
Definition new_account (em hash : jsstring) (e : env) : user :=
  {| id := js (pretty (date_now e));
     email := em;
     passwordHash := hash;
     createdAt := iso_now e |}.

(** No code unit of [s] is white space. *)
Definition no_space (s : jsstring) : Prop :=
  Forall (λ c, Regex.is_space c = false) s.

(** ** The signup handler around its [await]

    [POST /api/signup] is an [async] function: it runs its checks, then
    suspends on [await bcrypt.hash(password, 12)], and the event loop may
    serve other requests before it resumes. *)

(** Lines 43-46, up to the [await]: the response when a check fails, or
    the e-mail and password the handler suspends with. *)
Definition signup_begin (b : option body) (st : state)
  : response + (jsstring * jsstring) :=
  let flds := body_or_empty b in
  match b_email flds with
  | None => inl (reply 400 invalid_email)
  | Some email =>
      if negb (truthy_str email) || negb (Regex.test email_re email)
      then inl (reply 400 invalid_email)
      else
        match b_password flds with
        | None => inl (reply 400 password_too_short)
        | Some password =>
            if negb (truthy_str password) || (Z.of_nat (length password) <? 8)
            then inl (reply 400 password_too_short)
            else
              match users st !! email with
              | Some _ => inl (reply 409 already_registered)
              | None => inr (email, password)
              end
        end
  end.

(** Lines 49-61, from the moment the promise settles: [hashed] is the
    hash, or [None] when the promise was rejected; [st] is the state the
    handler finds when it resumes. *)
Definition signup_resume {E : Engine} (email : jsstring)
    (hashed : option jsstring) (e : env) (st : state) : response * state :=
  match hashed with
  | None => (reply 500 server_error, st)
  | Some hash =>
      let u := {| id := js (pretty (date_now e));
                  email := email;
                  passwordHash := hash;
                  createdAt := iso_now e |} in
      let sid := createSid (random e) in
      (redirected sid,
       {| users := <[email := u]> (users st);
          sessions := <[sid := email]> (sessions st) |})
  end.

(** ** More definitions used to state properties *)


(** The token a request stores its session under, if it creates one:
    [createSid()] of lines 54 and 79. *)
Definition minted_sid {E : Engine} (rq : request) : option jsstring :=
  match rq with
  | Signup _ e | Login _ e => Some (createSid (random e))
  | Me _ | Logout _ => None
  end.

(** The property names that occur in the object literals passed to
    [res.json]. *)
Definition response_keys : list string :=
  ["ok"; "field"; "message"; "redirect"; "email"; "id"]%string.

(** The status codes the handlers send. *)
Definition response_codes : list Z := [200; 400; 401; 409; 500].

(** The stores after [Signup("a@b.com", "longpassword")] on the empty
    server, with the stand-in platform: one account and the session
    ["s42"]. *)
Definition demo_registered : state :=
  (signup (B := demo_bcrypt) (E := demo_engine)
     (credentials (js "a@b.com") (js "longpassword")) demo_env init).2.

(** A stand-in bcrypt whose promises are always rejected. *)
Definition failing_bcrypt : Bcrypt := {|
  bcrypt_hash _ _ _ := None;
  bcrypt_compare _ _ := None
|}.

(** * The server as the event loop runs it

    [signup] and [login] are [async] functions: each runs up to its
    [await], and while bcrypt works the event loop may run parts of other
    requests.  A server is its stores together with the handlers that are
    suspended. *)

(** Lines 71-74 of [POST /api/login], up to the [await]: the response
    when a check fails, or what the handler suspends with (the account is
    read before the [await]). *)
Definition login_begin (b : option body) (st : state)
  : response + (jsstring * jsstring * user) :=
  let flds := body_or_empty b in
  match b_email flds, b_password flds with
  | Some email, Some password =>
      if negb (truthy_str email) || negb (truthy_str password)
      then inl (reply 400 missing_fields)
      else
        match users st !! email with
        | None => inl (reply 401 (failure (Some "email") "Invalid credentials"))
        | Some u => inr (email, password, u)
        end
  | _, _ => inl (reply 400 missing_fields)
  end.

(** Lines 77-86, from the moment [bcrypt.compare] has settled with
    [verdict] ([None]: the promise was rejected). *)
Definition login_resume {E : Engine} (email : jsstring)
    (verdict : option bool) (e : env) (st : state) : response * state :=
  match verdict with
  | None => (reply 500 server_error, st)
  | Some false =>
      (reply 401 (failure (Some "password") "Invalid credentials"), st)
  | Some true =>
      let sid := createSid (random e) in
      (redirected sid,
       {| users := users st; sessions := <[sid := email]> (sessions st) |})
  end.

(** A suspended handler. *)
Inductive task : Type :=
| Hashing (email password : jsstring)               (* signup, at line 49 *)
| Comparing (email password : jsstring) (u : user). (* login, at line 77 *)

#[global] Instance user_eq_dec : EqDecision user.
Proof. solve_decision. Defined.

#[global] Instance task_eq_dec : EqDecision task.
Proof. solve_decision. Defined.

Record server : Type := Server {
  stores : state;
  waiting : list task
}.

Definition boot : server := Server init [].

(** What the event loop does in one turn. *)
Inductive event : Type :=
| SignupBegun (b : option body)
| SignupResumed (email password : jsstring) (e : env)
| LoginBegun (b : option body)
| LoginResumed (email password : jsstring) (u : user) (e : env)
| MeServed (sid : option jsstring)
| LogoutServed (sid : option jsstring).

(** [l] without the first occurrence of [t], if there is one. *)
Fixpoint take (t : task) (l : list task) : option (list task) :=
  match l with
  | [] => None
  | x :: rest =>
      if decide (x = t) then Some rest else (x ::.) <$> take t rest
  end.

Section EventLoop.

Context {B : Bcrypt} {E : Engine}.

(** One turn: the response sent in it, if any, and the server after it.
    [None] when the event resumes a handler that is not suspended. *)
Definition turn (ev : event) (s : server) : option (option response * server) :=
  match ev with
  | SignupBegun b =>
      match signup_begin b (stores s) with
      | inl r => Some (Some r, s)
      | inr (em, pw) => Some (None, Server (stores s) (Hashing em pw :: waiting s))
      end
  | SignupResumed em pw e =>
      rest ← take (Hashing em pw) (waiting s);
      let out := signup_resume em (bcrypt_hash pw 12 (salt e)) e (stores s) in
      Some (Some out.1, Server out.2 rest)
  | LoginBegun b =>
      match login_begin b (stores s) with
      | inl r => Some (Some r, s)
      | inr (em, pw, u) =>
          Some (None, Server (stores s) (Comparing em pw u :: waiting s))
      end
  | LoginResumed em pw u e =>
      rest ← take (Comparing em pw u) (waiting s);
      let out := login_resume em (bcrypt_compare pw (passwordHash u)) e
                   (stores s) in
      Some (Some out.1, Server out.2 rest)
  | MeServed sid => Some (Some (me sid (stores s)), s)
  | LogoutServed sid =>
      let out := logout sid (stores s) in
      Some (Some out.1, Server out.2 (waiting s))
  end.

(** The server after the turns [evs]. *)
Fixpoint serve (evs : list event) (s : server) : option server :=
  match evs with
  | [] => Some s
  | ev :: rest => out ← turn ev s; serve rest out.2
  end.

(** The servers the event loop can produce. *)
Definition served (s : server) : Prop := ∃ evs, serve evs boot = Some s.


(** A request served without interruption, as turns. *)
Definition uninterrupted (rq : request) (st : state) : list event :=
  match rq with
  | Signup b e =>
      match signup_begin b st with
      | inl _ => [SignupBegun b]
      | inr (em, pw) => [SignupBegun b; SignupResumed em pw e]
      end
  | Login b e =>
      match login_begin b st with
      | inl _ => [LoginBegun b]
      | inr (em, pw, u) => [LoginBegun b; LoginResumed em pw u e]
      end
  | Me sid => [MeServed sid]
  | Logout sid => [LogoutServed sid]
  end.


End EventLoop.

(** * The handlers on arbitrary JSON bodies

    [bodyParser.json()] hands the handlers whatever JSON the client
    sent: the fields [email] and [password] can be any JSON value, and
    the handlers apply JavaScript's coercions to them.  [Wire] has the
    signup, login, me and logout handlers on such bodies; the handlers
    above are their restriction to fields that are strings or missing. *)

Module Wire.

(** A JSON value as [JSON.parse] returns it.  A number is given by its
    binary64 bit pattern; an object by its members in the order of the
    text, a later member replacing an earlier one of the same name. *)
#[local] Unset Elimination Schemes.
Inductive json : Type :=
| JNull
| JBoolean (b : bool)
| JNumber (bits : Z)
| JString (s : jsstring)
| JArray (elems : list json)
| JObject (props : list (jsstring * json)).
#[local] Set Elimination Schemes.

(** The two conversions between numbers and text of ECMAScript,
    [Number::toString(x, 10)] and [StringToNumber], on bit patterns. *)
Class Coercion : Type := {
  number_toString : Z → jsstring;
  string_toNumber : jsstring → Z
}.

(** [obj[key]] for an own property of an object made by [JSON.parse]. *)
Fixpoint own_prop (key : jsstring) (props : list (jsstring * json))
  : option json :=
  match props with
  | [] => None
  | (k, v) :: rest =>
      match own_prop key rest with
      | Some w => Some w
      | None => if bool_decide (k = key) then Some v else None
      end
  end.

Definition is_nan (bits : Z) : bool :=
  0x7FF0000000000000 <? Z.land bits 0x7FFFFFFFFFFFFFFF.

(** [ToBoolean]: [null], [false], [+0], [-0], [NaN] and [""] are falsy. *)
Definition to_boolean (v : json) : bool :=
  match v with
  | JNull => false
  | JBoolean b => b
  | JNumber bits =>
      negb ((Z.land bits 0x7FFFFFFFFFFFFFFF =? 0) || is_nan bits)
  | JString s => truthy_str s
  | JArray _ | JObject _ => true
  end.

(** [!v] is [negb (truthy v)] for a field that may be missing. *)
Definition truthy (v : option json) : bool :=
  match v with
  | None => false
  | Some w => to_boolean w
  end.

Section Coercions.

Context {C : Coercion}.

(** [ToString].  An array is joined with commas, [null] elements giving
    the empty text.  A plain object gives ["[object Object]"] through
    [Object.prototype.toString], unless it has an own member [toString]:
    that member is not callable, [valueOf] returns the object itself,
    and the conversion throws a [TypeError] ([None]). *)
Fixpoint to_string (v : json) : option jsstring :=
  match v with
  | JNull => Some (js "null")
  | JBoolean b => Some (if b then js "true" else js "false")
  | JNumber bits => Some (number_toString bits)
  | JString s => Some s
  | JArray elems =>
      (fix join (l : list json) : option jsstring :=
         match l with
         | [] => Some []
         | x :: rest =>
             sx ← match x with
                  | JNull => Some []
                  | _ => to_string x
                  end;
             match rest with
             | [] => Some sx
             | _ :: _ => sr ← join rest; Some (sx ++ 44%N :: sr)
             end
         end) elems
  | JObject props =>
      match own_prop (js "toString") props with
      | Some _ => None
      | None => Some (js "[object Object]")
      end
  end.

(** The value of [v.length]. *)
Inductive jslength : Type :=
| LenInt (n : nat)            (* the length of a string or an array *)
| LenValue (w : json)         (* the own member [length] of an object *)
| LenUndefined.

(** [v.length]; reading a property of [null] throws ([None]). *)
Definition get_length (v : json) : option jslength :=
  match v with
  | JNull => None
  | JBoolean _ | JNumber _ => Some LenUndefined
  | JString s => Some (LenInt (length s))
  | JArray elems => Some (LenInt (length elems))
  | JObject props =>
      match own_prop (js "length") props with
      | Some w => Some (LenValue w)
      | None => Some LenUndefined
      end
  end.

(** [ToNumber] of a JSON value; arrays and objects go through their
    text. *)
Definition to_number (v : json) : option Z :=
  match v with
  | JNull => Some 0
  | JBoolean b => Some (if b then 0x3FF0000000000000 else 0)
  | JNumber bits => Some bits
  | JString s => Some (string_toNumber s)
  | JArray _ | JObject _ => string_toNumber <$> to_string v
  end.

(** [x < 8] on binary64: false for [NaN], true for every negative
    number, and on the others the order of the bit patterns
    ([8] is [0x4020000000000000]). *)
Definition double_lt_8 (bits : Z) : bool :=
  if is_nan bits then false
  else if Z.testbit bits 63 then true
  else bits <? 0x4020000000000000.

(** [len < 8]. *)
Definition less_than_8 (len : jslength) : option bool :=
  match len with
  | LenInt n => Some (Z.of_nat n <? 8)
  | LenUndefined => Some false
  | LenValue w => double_lt_8 <$> to_number w
  end.

End Coercions.

(** [users[key] = { id, email, passwordHash, createdAt }]: [email] is the
    value of the request, stored as it came. *)
Record user : Type := User {
  id : jsstring;
  email : json;
  passwordHash : jsstring;
  createdAt : jsstring
}.

(** [sessions[sid] = email], again the value as it came. *)
Record state : Type := State {
  users : gmap jsstring user;
  sessions : gmap jsstring json
}.

Definition init : state := State ∅ ∅.

Record body : Type := Body {
  b_email : option json;
  b_password : option json
}.

(** [req.body || {}] *)
Definition body_or_empty (b : option body) : body :=
  match b with
  | Some flds => flds
  | None => Body None None
  end.

(** What [res.json] is given by [GET /api/me]: [email] is whatever the
    account holds. *)
Record answer : Type := Answer {
  a_status : Z;
  a_json : list (string * json)
}.

Section Handlers.

Context {B : Bcrypt} {E : Engine} {C : Coercion}.

(** [bcrypt.hash(data, rounds)] and [bcrypt.compare(data, hash)] reject
    data that is neither a string nor a [Buffer]; a JSON value is never
    a [Buffer]. *)
Definition hash_json (data : json) (rounds : Z) (s : list N) : option jsstring :=
  match data with
  | JString text => bcrypt_hash text rounds s
  | _ => None
  end.

Definition compare_json (data : json) (hash : jsstring) : option bool :=
  match data with
  | JString text => bcrypt_compare text hash
  | _ => None
  end.

(** [POST /api/signup].  [None]: a [TypeError] thrown by a conversion on
    line 44, 45 or 46, outside the [try], leaves the handler; nothing has
    been written and the handler sends no response.  The property key of
    [users[email]] is the text of [email], the same text the pattern was
    tested on. *)
Definition signup (b : option body) (e : env) (st : state)
  : option (response * state) :=
  let flds := body_or_empty b in
  match b_email flds with
  | None => Some (reply 400 invalid_email, st)
  | Some email =>
      if negb (to_boolean email)
      then Some (reply 400 invalid_email, st)
      else
        address ← to_string email;
        if negb (Regex.test email_re address)
        then Some (reply 400 invalid_email, st)
        else
          match b_password flds with
          | None => Some (reply 400 password_too_short, st)
          | Some password =>
              if negb (to_boolean password)
              then Some (reply 400 password_too_short, st)
              else
                len ← get_length password;
                short ← less_than_8 len;
                if (short : bool)
                then Some (reply 400 password_too_short, st)
                else
                  match users st !! address with
                  | Some _ => Some (reply 409 already_registered, st)
                  | None =>
                      match hash_json password 12 (salt e) with
                      | None => Some (reply 500 server_error, st)
                      | Some hash =>
                          let u := {| id := js (pretty (date_now e));
                                      email := email;
                                      passwordHash := hash;
                                      createdAt := iso_now e |} in
                          let sid := createSid (random e) in
                          Some (redirected sid,
                                {| users := <[address := u]> (users st);
                                   sessions := <[sid := email]> (sessions st) |})
                      end
                  end
          end
  end.

(** [POST /api/login]; [users[email]] on line 73 is outside the [try]. *)
Definition login (b : option body) (e : env) (st : state)
  : option (response * state) :=
  let flds := body_or_empty b in
  if negb (truthy (b_email flds)) || negb (truthy (b_password flds))
  then Some (reply 400 missing_fields, st)
  else
    match b_email flds, b_password flds with
    | Some email, Some password =>
        address ← to_string email;
        match users st !! address with
        | None =>
            Some (reply 401 (failure (Some "email") "Invalid credentials"), st)
        | Some u =>
            match compare_json password (passwordHash u) with
            | None => Some (reply 500 server_error, st)
            | Some false =>
                Some (reply 401 (failure (Some "password") "Invalid credentials"),
                      st)
            | Some true =>
                let sid := createSid (random e) in
                Some (redirected sid,
                      {| users := users st;
                         sessions := <[sid := email]> (sessions st) |})
            end
        end
    | _, _ => Some (reply 400 missing_fields, st)
    end.

Definition unauthenticated : answer :=
  {| a_status := 401;
     a_json := [("ok"%string, JBoolean false);
                ("message"%string, JString (js "Not authenticated"))] |}.

(** [GET /api/me], with the [sid] cookie a string or missing. *)
Definition me (sid : option jsstring) (st : state) : option answer :=
  match sid with
  | None => Some unauthenticated
  | Some sid =>
      if negb (truthy_str sid) || negb (truthy (sessions st !! sid))
      then Some unauthenticated
      else
        match sessions st !! sid with
        | None => Some unauthenticated
        | Some owner =>
            address ← to_string owner;
            match users st !! address with
            | None => Some unauthenticated
            | Some u =>
                Some {| a_status := 200;
                        a_json := [("ok"%string, JBoolean true);
                                   ("email"%string, email u);
                                   ("id"%string, JString (id u))] |}
            end
        end
  end.

(** [POST /api/logout]. *)
Definition logout (sid : option jsstring) (st : state) : response * state :=
  match sid with
  | Some sid =>
      if truthy_str sid
      then (Response 200 ClearSid [prop "ok" (JBool true)],
            {| users := users st; sessions := delete sid (sessions st) |})
      else (Response 200 NoCookie [prop "ok" (JBool true)], st)
  | None => (Response 200 NoCookie [prop "ok" (JBool true)], st)
  end.

(** The stores after a signup or login, which are as before when a
    [TypeError] left the handler. *)
Definition stores_after (out : option (response * state)) (st : state) : state :=
  match out with
  | Some (_, st') => st'
  | None => st
  end.

Inductive request : Type :=
| Signup (b : option body) (e : env)
| Login (b : option body) (e : env)
| Me (sid : option jsstring)
| Logout (sid : option jsstring).

Definition next (rq : request) (st : state) : state :=
  match rq with
  | Signup b e => stores_after (signup b e st) st
  | Login b e => stores_after (login b e st) st
  | Me _ => st
  | Logout sid => (logout sid st).2
  end.

Inductive reachable : state → Prop :=
| reach_init : reachable init
| reach_next st rq : reachable st → reachable (next rq st).

End Handlers.

End Wire.

(** ** The handlers above inside [Wire] *)

Definition wire_field (v : option jsstring) : option Wire.json :=
  Wire.JString <$> v.

Definition wire_body (b : option body) : option Wire.body :=
  (λ flds, Wire.Body (wire_field (b_email flds)) (wire_field (b_password flds)))
    <$> b.

Definition wire_user (u : user) : Wire.user :=
  {| Wire.id := id u;
     Wire.email := Wire.JString (email u);
     Wire.passwordHash := passwordHash u;
     Wire.createdAt := createdAt u |}.

Definition wire_state (st : state) : Wire.state :=
  {| Wire.users := wire_user <$> users st;
     Wire.sessions := Wire.JString <$> sessions st |}.

Definition wire_value (v : jsval) : Wire.json :=
  match v with
  | JBool b => Wire.JBoolean b
  | JStr s => Wire.JString s
  end.

Definition wire_answer (r : response) : Wire.answer :=
  {| Wire.a_status := status r;
     Wire.a_json := (λ kv, (kv.1, wire_value kv.2)) <$> json r |}.


(** The string in a field, if it is one. *)
Definition field_string (v : option Wire.json) : option jsstring :=
  match v with
  | Some (Wire.JString s) => Some s
  | _ => None
  end.

(** The number 1234567 and a body with a string e-mail and any password. *)
Definition number_1234567 : Wire.json := Wire.JNumber 0x4132D68700000000.

Definition wire_credentials (email : jsstring) (password : Wire.json)
  : option Wire.body :=
  Some (Wire.Body (Some (Wire.JString email)) (Some password)).

(** Stand-in conversions, to run [Wire] on concrete requests whose answer
    does not depend on them. *)
Definition demo_coercion : Wire.Coercion := {|
  Wire.number_toString _ := js "0";
  Wire.string_toNumber _ := 0x7FF8000000000000
|}.

(** The account line 50 stores for the e-mail value [v]. *)
Definition wire_account (v : Wire.json) (hash : jsstring) (e : env)
  : Wire.user :=
  {| Wire.id := js (pretty (date_now e));
     Wire.email := v;
     Wire.passwordHash := hash;
     Wire.createdAt := iso_now e |}.

(** The e-mail ["a@b.com"] sent as the one-element array [["a@b.com"]]. *)
Definition array_email : Wire.json :=
  Wire.JArray [Wire.JString (js "a@b.com")].

(** The [Wire] stores after a signup with that array as e-mail and the
    password ["longpassword"], on the empty server with the stand-in
    platform. *)
Definition demo_array_registered : Wire.state :=
  Wire.next (B := demo_bcrypt) (E := demo_engine) (C := demo_coercion)
    (Wire.Signup
       (Some (Wire.Body (Some array_email)
                (Some (Wire.JString (js "longpassword")))))
       demo_env)
    Wire.init.

(** Every account of a [Wire] state is stored under the text of its
    [email] value, a text that passed the signup pattern, and holds the
    bcrypt hash (12 rounds) of a string password of at least 8 code
    units; every session belongs to a truthy value whose text is the key
    of an account. *)
Definition wire_wellformed {B : Bcrypt} {C : Wire.Coercion} (st : Wire.state)
  : Prop :=
  (∀ k u, Wire.users st !! k = Some u →
     Wire.to_string (Wire.email u) = Some k
     ∧ Regex.test email_re k = true
     ∧ ∃ pw e,
         8 ≤ Z.of_nat (length pw)
         ∧ bcrypt_hash pw 12 (salt e) = Some (Wire.passwordHash u)
         ∧ Wire.id u = js (pretty (date_now e))
         ∧ Wire.createdAt u = iso_now e)
  ∧ (∀ sid v, Wire.sessions st !! sid = Some v →
       truthy_str sid = true
       ∧ Wire.to_boolean v = true
       ∧ ∃ k, Wire.to_string v = Some k ∧ is_Some (Wire.users st !! k)).

(** * Properties *)

(** ** Matching by derivatives is matching *)

Section RegexCorrect.

Import Regex.

Lemma nullable_matches r : nullable r = true ↔ matches r [].
Proof.
  split.
  - induction r as [| |k|r1 IH1 r2 IH2|r1 IH1 r2 IH2|r IH]; simpl; intros Hn;
      try discriminate.
    + constructor.
    + apply andb_prop in Hn as [H1 H2].
      change (matches (Cat r1 r2) ([] ++ [])). constructor; auto.
    + apply orb_prop in Hn as [H1 | H2];
        [apply m_alt_l | apply m_alt_r]; auto.
    + constructor.
  - induction r as [| |k|r1 IH1 r2 IH2|r1 IH1 r2 IH2|r IH]; simpl; intros Hm;
      inversion Hm; subst; try done.
    + match goal with H : _ ++ _ = [] |- _ => apply app_eq_nil in H as [-> ->] end.
      by rewrite IH1, IH2.
    + by rewrite IH1.
    + rewrite IH2 by done. apply orb_true_r.
Qed.

(** A non-empty match of [r*] starts with a non-empty match of [r]. *)
Lemma star_cons_inv r c s :
  matches (Star r) (c :: s) →
  ∃ s1 s2, s = s1 ++ s2 ∧ matches r (c :: s1) ∧ matches (Star r) s2.
Proof.
  intros Hm. remember (Star r) as r' eqn:Hr. remember (c :: s) as w eqn:Hw.
  revert s Hw.
  induction Hm as [| | | | | |r0 s1 s2 H1 _ H2 IH2]; try discriminate.
  injection Hr as ->. intros s Hw.
  destruct s1 as [|c1 s1]; simpl in Hw.
  - by apply IH2.
  - injection Hw as -> <-. by exists s1, s2.
Qed.

Lemma cat_inv r1 r2 s :
  matches (Cat r1 r2) s →
  ∃ s1 s2, s = s1 ++ s2 ∧ matches r1 s1 ∧ matches r2 s2.
Proof. inversion 1; subst; eauto. Qed.

Lemma alt_inv r1 r2 s : matches (Alt r1 r2) s → matches r1 s ∨ matches r2 s.
Proof. inversion 1; subst; eauto. Qed.

Lemma chr_inv k s : matches (Chr k) s → ∃ c, s = [c] ∧ cls_mem k c = true.
Proof. inversion 1; subst; eauto. Qed.

Lemma cat_cons r1 r2 c s1 s2 :
  matches r1 (c :: s1) → matches r2 s2 → matches (Cat r1 r2) (c :: s1 ++ s2).
Proof. intros H1 H2. apply (m_cat _ _ (c :: s1) s2); done. Qed.

Lemma deriv_matches c r s : matches (deriv c r) s ↔ matches r (c :: s).
Proof.
  revert s.
  induction r as [| |k|r1 IH1 r2 IH2|r1 IH1 r2 IH2|r IH]; intros s; simpl.
  - split; inversion 1.
  - split; inversion 1.
  - split.
    + destruct (cls_mem k c) eqn:Hk; inversion 1; subst. by constructor.
    + intros (c' & [= <- ->] & Hk)%chr_inv. rewrite Hk. constructor.
  - split.
    + assert (matches (Cat (deriv c r1) r2) s → matches (Cat r1 r2) (c :: s))
        as Hcat.
      { intros (s1 & s2 & -> & H1 & H2)%cat_inv.
        apply cat_cons; [by apply IH1 | done]. }
      destruct (nullable r1) eqn:Hn; [|done].
      intros [Hl | Hr]%alt_inv; [by apply Hcat|].
      apply (m_cat _ _ [] (c :: s)); [by apply nullable_matches | by apply IH2].
    + intros (s1 & s2 & Heq & H1 & H2)%cat_inv.
      destruct s1 as [|c1 s1]; simpl in Heq.
      * subst s2. apply nullable_matches in H1. rewrite H1.
        apply m_alt_r. by apply IH2.
      * injection Heq as <- ->.
        assert (matches (Cat (deriv c r1) r2) (s1 ++ s2)) as Hcat
          by (constructor; [by apply IH1 | done]).
        destruct (nullable r1); [by apply m_alt_l | done].
  - split.
    + intros [Hl | Hr]%alt_inv; [apply m_alt_l, IH1 | apply m_alt_r, IH2]; done.
    + intros [Hl | Hr]%alt_inv; [apply m_alt_l, IH1 | apply m_alt_r, IH2]; done.
  - split.
    + intros (s1 & s2 & -> & H1 & H2)%cat_inv.
      apply (m_star_cons _ (c :: s1) s2); [by apply IH | done].
    + intros (s1 & s2 & -> & H1 & H2)%star_cons_inv.
      constructor; [by apply IH | done].
Qed.

(** [test] decides membership in the language of the pattern. *)
Lemma test_matches r s : test r s = true ↔ matches r s.
Proof.
  revert r. induction s as [|c s IH]; intros r; simpl.
  - apply nullable_matches.
  - rewrite IH. apply deriv_matches.
Qed.

Lemma star_nonspace s : matches (Star (Chr NonSpace)) s ↔ no_space s.
Proof.
  split.
  - intros Hm. remember (Star (Chr NonSpace)) as r eqn:Hr.
    induction Hm as [| | | | | |r0 s1 s2 H1 _ H2 IH2]; try discriminate.
    + constructor.
    + injection Hr as ->. apply chr_inv in H1 as (c & -> & Hc).
      constructor; [|by apply IH2].
      simpl in Hc. by apply negb_true_iff.
  - induction 1 as [|c s Hc _ IH]; [constructor|].
    apply (m_star_cons _ [c] s); [|done]. constructor. simpl. by rewrite Hc.
Qed.

Lemma plus_nonspace s :
  matches (Plus (Chr NonSpace)) s ↔ s ≠ [] ∧ no_space s.
Proof.
  unfold Plus. split.
  - intros (s1 & s2 & -> & (c & -> & Hc)%chr_inv & H2)%cat_inv.
    split; [done|]. constructor; [|by apply star_nonspace].
    simpl in Hc. by apply negb_true_iff.
  - intros [Hne Hns]. destruct s as [|c s]; [done|].
    inversion Hns as [|? ? Hc Hs]; subst.
    apply (m_cat _ _ [c] s); [|by apply star_nonspace].
    constructor. simpl. by rewrite Hc.
Qed.

Lemma lit_matches d s : matches (Chr (Lit d)) s ↔ s = [d].
Proof.
  split.
  - intros (c & -> & Hc)%chr_inv. simpl in Hc.
    by apply N.eqb_eq in Hc as ->.
  - intros ->. constructor. simpl. apply N.eqb_refl.
Qed.

(** X15.  The strings the signup pattern [/^\S+@\S+\.\S+$/] accepts are
    exactly those made of white-space free text, an [@], white-space free
    text, a dot and white-space free text, each text non-empty (the texts
    may themselves contain [@] and dots). *)
Lemma email_re_shape s :
  test email_re s = true ↔
  ∃ a b c, s = a ++ [64%N] ++ b ++ [46%N] ++ c
           ∧ (a ≠ [] ∧ no_space a)
           ∧ (b ≠ [] ∧ no_space b)
           ∧ (c ≠ [] ∧ no_space c).
Proof.
  rewrite test_matches. unfold email_re. split.
  - intros (a & t1 & -> & Ha & H1)%cat_inv.
    apply cat_inv in H1 as (at_ & t2 & -> & ->%lit_matches & H2).
    apply cat_inv in H2 as (b & t3 & -> & Hb & H3).
    apply cat_inv in H3 as (dot & c & -> & ->%lit_matches & Hc).
    exists a, b, c. by rewrite <- !plus_nonspace.
  - intros (a & b & c & -> & Ha & Hb & Hc).
    repeat (constructor; try by apply plus_nonspace).
    all: by apply lit_matches.
Qed.

End RegexCorrect.

(** ** The e-mail pattern *)

Lemma email_re_nonempty s : Regex.test email_re s = true → truthy_str s = true.
Proof. destruct s; [discriminate | done]. Qed.

Lemma long_password_nonempty (s : jsstring) :
  8 ≤ Z.of_nat (length s) → truthy_str s = true.
Proof. destruct s; simpl; [lia | done]. Qed.

(** ** Validation at signup *)

Section Validation.

Context {B : Bcrypt} {E : Engine}.

Lemma signup_invalid_email b e st :
  valid_email (b_email (body_or_empty b)) = false →
  signup b e st = (reply 400 invalid_email, st).
Proof.
  unfold signup, valid_email. destruct (b_email _) as [em|]; [|done].
  intros ->. by rewrite orb_true_r.
Qed.

Lemma signup_short_password b e st :
  valid_email (b_email (body_or_empty b)) = true →
  password_ok (b_password (body_or_empty b)) = false →
  signup b e st = (reply 400 password_too_short, st).
Proof.
  unfold signup, valid_email, password_ok.
  destruct (b_email _) as [em|]; [|done]. intros Hre.
  rewrite Hre, (email_re_nonempty _ Hre). simpl.
  destruct (b_password _) as [pw|]; [|done]. intros Hlen.
  replace (Z.of_nat (length pw) <? 8) with true by lia.
  by rewrite orb_true_r.
Qed.

(** On bodies whose fields are strings or missing: a signup whose e-mail
    does not have the address shape is answered 400 with field [email];
    one whose e-mail is valid and whose password is missing or shorter
    than 8 is answered 400 with field [password]; in both cases the users
    and sessions stores are left as they were. *)
Theorem signup_rejects_invalid_input b e st :
  let flds := body_or_empty b in
  let out := signup b e st in
  (valid_email (b_email flds) = false →
     status out.1 = 400
     ∧ json_get "field" (json out.1) = Some (JStr (js "email"))
     ∧ out.2 = st)
  ∧ (valid_email (b_email flds) = true →
     password_ok (b_password flds) = false →
     status out.1 = 400
     ∧ json_get "field" (json out.1) = Some (JStr (js "password"))
     ∧ out.2 = st).
Proof.
  intros flds out. split.
  - intros Hbad. subst out. by rewrite (signup_invalid_email _ _ _ Hbad).
  - intros Hok Hshort. subst out.
    by rewrite (signup_short_password _ _ _ Hok Hshort).
Qed.

(** C10.  With no body ([req.body] undefined), and likewise with a body
    that has neither field, signup and login both answer 400 and leave
    both stores as they were. *)
Theorem missing_body_rejected e st :
  Forall (λ b,
      (status (signup b e st).1 = 400 ∧ (signup b e st).2 = st)
      ∧ (status (login b e st).1 = 400 ∧ (login b e st).2 = st))
    [None; Some (Body None None)].
Proof. by repeat constructor. Qed.

End Validation.

(** ** Logout *)

Section Logout.

Context {B : Bcrypt} {E : Engine}.







End Logout.

(** ** Signup, login and the stores *)

Section Accounts.

Context {B : Bcrypt} {E : Engine}.

Lemma createSid_truthy r : truthy_str (createSid r) = true.
Proof. done. Qed.

(** What a signup that passes every check does. *)
Lemma signup_accepts em pw h e st :
  Regex.test email_re em = true →
  8 ≤ Z.of_nat (length pw) →
  users st !! em = None →
  bcrypt_hash pw 12 (salt e) = Some h →
  signup (credentials em pw) e st =
    (redirected (createSid (random e)),
     {| users := <[em := new_account em h e]> (users st);
        sessions := <[createSid (random e) := em]> (sessions st) |}).
Proof.
  intros Hre Hlen Hfree Hhash. unfold signup, credentials. simpl.
  rewrite Hre, (email_re_nonempty _ Hre), (long_password_nonempty _ Hlen).
  replace (Z.of_nat (length pw) <? 8) with false by lia. simpl.
  by rewrite Hfree, Hhash.
Qed.

(** A signup answered 200 has passed every check. *)
Lemma signup_success_inv b e st :
  status (signup b e st).1 = 200 →
  ∃ em pw h,
    b = credentials em pw
    ∧ Regex.test email_re em = true
    ∧ 8 ≤ Z.of_nat (length pw)
    ∧ users st !! em = None
    ∧ bcrypt_hash pw 12 (salt e) = Some h.
Proof.
  unfold signup.
  destruct b as [[[em|] [pw|]]|]; simpl; try discriminate;
    destruct (truthy_str em); simpl; try discriminate;
    destruct (Regex.test email_re em) eqn:Hre; simpl; try discriminate.
  destruct (truthy_str pw); simpl; try discriminate.
  destruct (Z.of_nat (length pw) <? 8) eqn:Hlen; simpl; try discriminate.
  destruct (users st !! em) eqn:Hfree; simpl; try discriminate.
  destruct (bcrypt_hash pw 12 (salt e)) as [h|] eqn:Hhash; simpl;
    try discriminate.
  intros _. exists em, pw, h. repeat split; try done. lia.
Qed.

(** No handler changes or removes an account. *)
Lemma handle_users_mono rq st k u :
  users st !! k = Some u → users (handle rq st).2 !! k = Some u.
Proof.
  intros Hk. destruct rq as [b e | b e | sid | sid]; simpl; try done.
  - unfold signup.
    repeat (case_match; simpl; try done).
    rewrite lookup_insert_ne; [done | congruence].
  - unfold login. repeat (case_match; simpl; try done).
  - unfold logout. repeat (case_match; simpl; try done).
Qed.

Lemma run_users_mono rqs st k u :
  users st !! k = Some u → users (run rqs st) !! k = Some u.
Proof.
  revert st. induction rqs as [|rq rqs IH]; intros st Hk; [done|].
  apply IH. by apply handle_users_mono.
Qed.

Lemma handle_keyed rq st :
  keyed_by_email st → keyed_by_email (handle rq st).2.
Proof.
  intros Hinv. destruct rq as [b e | b e | sid | sid]; simpl; try done.
  - destruct (status (signup b e st).1 =? 200) eqn:Hst.
    + apply Z.eqb_eq, signup_success_inv in Hst.
      destruct Hst as (em & pw & h & -> & Hre & Hlen & Hfree & Hhash).
      rewrite (signup_accepts _ _ _ _ _ Hre Hlen Hfree Hhash). simpl.
      intros k u. simpl. rewrite lookup_insert. case_decide.
      * intros [= <-]. by subst.
      * apply Hinv.
    + revert Hst. unfold signup.
      repeat (case_match; simpl; try done).
  - unfold login. repeat (case_match; simpl; try done).
  - unfold logout. repeat (case_match; simpl; try done).
Qed.

Lemma reachable_keyed st : reachable st → keyed_by_email st.
Proof.
  induction 1 as [|st rq _ IH]; [|by apply handle_keyed].
  intros k u. simpl. by rewrite lookup_empty.
Qed.

Lemma reachable_run rqs st : reachable st → reachable (run rqs st).
Proof.
  revert st. induction rqs as [|rq rqs IH]; intros st Hst; [done|].
  apply IH. by constructor.
Qed.

End Accounts.

(** ** The claims about accounts and sessions *)

Section Lifecycle.

Context {B : Bcrypt} {E : Engine}.

(** C3.  For a valid e-mail with no account and a password of at least 8
    code units, signup answers 200 and stores a hash that verifies
    against the password.  A login with the same credentials, directly
    afterwards and also after any further requests, then answers 200,
    sets the [sid] cookie to a fresh token, leaves the accounts alone and
    records the session of that token for the e-mail, so that [me] with
    the cookie reports the e-mail and the id of the account; the login
    succeeds because the password verifies: with a password that bcrypt
    does not accept for the stored hash it is answered 401 and changes
    nothing.  (bcrypt is taken to meet [BcryptSpec].) *)
Theorem signup_then_login {HB : BcryptSpec B} em pw e st rqs e' :
  Regex.test email_re em = true →
  8 ≤ Z.of_nat (length pw) →
  users st !! em = None →
  let out := signup (credentials em pw) e st in
  let st2 := run rqs out.2 in
  let sid := createSid (random e') in
  let back := login (credentials em pw) e' st2 in
  status out.1 = 200
  ∧ (∃ u, users out.2 !! em = Some u
          ∧ bcrypt_compare pw (passwordHash u) = Some true)
  ∧ status back.1 = 200
  ∧ cookie back.1 = SetSid sid
  ∧ back.2 = {| users := users st2; sessions := <[sid := em]> (sessions st2) |}
  ∧ (∃ u, users out.2 !! em = Some u
          ∧ me (Some sid) back.2 =
              {| status := 200;
                 cookie := NoCookie;
                 json := [prop "ok" (JBool true);
                          prop "email" (JStr em);
                          prop "id" (JStr (id u))] |})
  ∧ (∀ pw',
       truthy_str pw' = true →
       (∀ u, users out.2 !! em = Some u →
             bcrypt_compare pw' (passwordHash u) = Some false) →
       login (credentials em pw') e' st2 =
         (reply 401 (failure (Some "password") "Invalid credentials"), st2)).
Proof.
  intros Hre Hlen Hfree out st2 sid back.
  destruct (hash_succeeds pw 12 (salt e)) as [h Hhash].
  pose proof (compare_hash _ _ _ _ Hhash) as Hcmp.
  pose proof (email_re_nonempty _ Hre) as Hem.
  assert (out = (redirected (createSid (random e)),
                 {| users := <[em := new_account em h e]> (users st);
                    sessions := <[createSid (random e) := em]> (sessions st) |}))
    as Hout by apply (signup_accepts _ _ _ _ _ Hre Hlen Hfree Hhash).
  assert (users out.2 !! em = Some (new_account em h e)) as Hstored
    by (rewrite Hout; apply lookup_insert_eq).
  assert (users st2 !! em = Some (new_account em h e)) as Hkept
    by (by apply run_users_mono).
  assert (back = (redirected sid,
                  {| users := users st2;
                     sessions := <[sid := em]> (sessions st2) |})) as Hback.
  { subst back. unfold login, credentials. simpl.
    rewrite Hem, (long_password_nonempty _ Hlen), Hkept. simpl.
    by rewrite Hcmp. }
  split; [by rewrite Hout|]. split; [by exists (new_account em h e)|].
  rewrite Hback. simpl. repeat split.
  - exists (new_account em h e). split; [done|].
    unfold me. simpl. rewrite !lookup_insert_eq. simpl.
    by rewrite Hem, Hkept.
  - intros pw' Hpw' Hrej. pose proof (Hrej _ Hstored) as Hno. simpl in Hno.
    unfold login, credentials. simpl.
    rewrite Hem, Hpw', Hkept. simpl. by rewrite Hno.
Qed.

(** C7.  When signup answers 200, the request carried a valid e-mail and
    password, the response sets the [sid] cookie, and [me] with that
    cookie answers 200 with the e-mail of the request and the id of the
    account just stored. *)
Theorem signup_then_me b e st :
  let out := signup b e st in
  status out.1 = 200 →
  ∃ em pw sid u,
    b = credentials em pw
    ∧ cookie out.1 = SetSid sid
    ∧ users out.2 !! em = Some u
    ∧ email u = em
    ∧ id u = js (pretty (date_now e))
    ∧ me (Some sid) out.2 =
        {| status := 200;
           cookie := NoCookie;
           json := [prop "ok" (JBool true);
                    prop "email" (JStr em);
                    prop "id" (JStr (id u))] |}.
Proof.
  intros out Hok. subst out.
  destruct (signup_success_inv _ _ _ Hok)
    as (em & pw & h & -> & Hre & Hlen & Hfree & Hhash).
  rewrite (signup_accepts _ _ _ _ _ Hre Hlen Hfree Hhash). simpl.
  exists em, pw, (createSid (random e)), (new_account em h e).
  repeat split; try done.
  - apply lookup_insert_eq.
  - unfold me. simpl. rewrite !lookup_insert_eq. simpl.
    by rewrite (email_re_nonempty _ Hre).
Qed.


(** C1, as the code has it.  In every reachable state the users store
    holds at most one account per e-mail string as received: two entries
    whose accounts carry the same e-mail are one and the same entry. *)
Theorem one_account_per_email st k1 k2 u1 u2 :
  reachable st →
  users st !! k1 = Some u1 →
  users st !! k2 = Some u2 →
  email u1 = email u2 →
  k1 = k2 ∧ u1 = u2.
Proof.
  intros Hreach H1 H2 Heq.
  destruct (reachable_keyed _ Hreach _ _ H1) as [E1 _].
  destruct (reachable_keyed _ Hreach _ _ H2) as [E2 _].
  assert (k1 = k2) as -> by congruence.
  split; [done | congruence].
Qed.

(** C2, what the code does.  A login for an e-mail without account and a
    login with a password that does not verify are both answered 401
    with the message ["Invalid credentials"], but the first carries
    field [email] and the second field [password]: the two responses
    differ. *)
Theorem login_failures_differ em em' pw pw' e e' st u :
  truthy_str em = true → truthy_str pw = true →
  truthy_str em' = true → truthy_str pw' = true →
  users st !! em = None →
  users st !! em' = Some u →
  bcrypt_compare pw' (passwordHash u) = Some false →
  let unknown := (login (credentials em pw) e st).1 in
  let wrong := (login (credentials em' pw') e' st).1 in
  status unknown = 401 ∧ status wrong = 401
  ∧ json_get "message" (json unknown) = json_get "message" (json wrong)
  ∧ json_get "field" (json unknown) = Some (JStr (js "email"))
  ∧ json_get "field" (json wrong) = Some (JStr (js "password"))
  ∧ unknown ≠ wrong.
Proof.
  intros Hem Hpw Hem' Hpw' Hnone Hsome Hcmp unknown wrong.
  subst unknown wrong. unfold login, credentials. simpl.
  rewrite Hem, Hpw, Hem', Hpw', Hnone, Hsome, Hcmp. simpl.
  repeat split; done.
Qed.

End Lifecycle.

(** ** Session tokens *)

Section Tokens.

Context {E : Engine}.

Lemma tokens_from_doubles ts :
  Forall is_token ts →
  ∃ rs, ts = createSid <$> rs ∧ Forall (λ r, 0 ≤ r < unit_doubles) rs.
Proof.
  induction 1 as [|t ts (r & Hr & ->) _ (rs & -> & Hrs)].
  - by exists [].
  - exists (r :: rs). split; [done | by constructor].
Qed.

Lemma distinct_in_range (n : Z) (rs : list Z) :
  NoDup rs → Forall (λ r, 0 ≤ r < n) rs → Z.of_nat (length rs) ≤ Z.max 0 n.
Proof.
  intros Hnd Hrange.
  assert (rs ⊆+ seqZ 0 n) as Hsub.
  { apply NoDup_submseteq; [done|]. intros r Hr.
    rewrite Forall_forall in Hrange. apply elem_of_seqZ.
    specialize (Hrange r Hr). lia. }
  apply submseteq_length in Hsub. rewrite length_seqZ in Hsub. lia.
Qed.

(** C5, what the code does.  A token is ['s'] followed by the radix-36
    digits of one [Math.random()] value, so pairwise distinct tokens are
    at most as many as the binary64 values in [0, 1): fewer than [2^62],
    far below the [2^128] the claim asks for. *)
Theorem createSid_space_bounded (ts : list jsstring) :
  NoDup ts → Forall is_token ts →
  Z.of_nat (length ts) ≤ unit_doubles ∧ unit_doubles < 2 ^ 62.
Proof.
  intros Hnd Htok. split; [|done].
  destruct (tokens_from_doubles _ Htok) as (rs & -> & Hrs).
  rewrite length_fmap. apply NoDup_fmap_1 in Hnd.
  pose proof (distinct_in_range _ _ Hnd Hrs) as Hlen.
  assert (0 ≤ unit_doubles) by done. lia.
Qed.

End Tokens.

(** ** The properties on concrete requests *)

Lemma demo_bcrypt_spec : BcryptSpec demo_bcrypt.
Proof.
  split; simpl.
  - intros data _ _. by eexists.
  - intros data _ _ h [= <-]. by rewrite bool_decide_true.
Qed.

(** The examples of the specification: [Signup("not-an-email",
    "longpassword")] and [Signup("a@b.com", "short")]. *)
Lemma signup_rejects_invalid_input_witness :
  let bad_email := credentials (js "not-an-email") (js "longpassword") in
  let bad_password := credentials (js "a@b.com") (js "short") in
  let out1 := signup (B := demo_bcrypt) (E := demo_engine) bad_email demo_env init in
  let out2 := signup (B := demo_bcrypt) (E := demo_engine) bad_password demo_env init in
  (valid_email (b_email (body_or_empty bad_email)) = false
   ∧ status out1.1 = 400
   ∧ json_get "field" (json out1.1) = Some (JStr (js "email"))
   ∧ out1.2 = init)
  ∧ (valid_email (b_email (body_or_empty bad_password)) = true
     ∧ password_ok (b_password (body_or_empty bad_password)) = false
     ∧ status out2.1 = 400
     ∧ json_get "field" (json out2.1) = Some (JStr (js "password"))
     ∧ out2.2 = init).
Proof.
  intros bad_email bad_password out1 out2. split.
  - split; [reflexivity|].
    apply (signup_rejects_invalid_input (B := demo_bcrypt) (E := demo_engine)
             bad_email demo_env init).
    reflexivity.
  - split; [reflexivity|]. split; [reflexivity|].
    apply (signup_rejects_invalid_input (B := demo_bcrypt) (E := demo_engine)
             bad_password demo_env init); reflexivity.
Defined.


Lemma signup_then_login_witness :
  let em := js "a@b.com" in
  let pw := js "longpassword" in
  let out := signup (B := demo_bcrypt) (E := demo_engine)
               (credentials em pw) demo_env init in
  let st2 := run (B := demo_bcrypt) (E := demo_engine)
               [Logout (Some (js "s42")); Me None] out.2 in
  let back := login (B := demo_bcrypt) (E := demo_engine) (credentials em pw)
                demo_env_later st2 in
  (Regex.test email_re em = true
   ∧ 8 ≤ Z.of_nat (length pw)
   ∧ users init !! em = None)
  ∧ status out.1 = 200
  ∧ status back.1 = 200
  ∧ cookie back.1 = SetSid (js "s43")
  ∧ sessions back.2 !! js "s43" = Some em
  ∧ status (me (Some (js "s43")) back.2) = 200
  ∧ status (login (B := demo_bcrypt) (E := demo_engine)
              (credentials em (js "wrongpassword")) demo_env_later st2).1
    = 401.
Proof.
  intros em pw out st2 back. split.
  - split; [reflexivity|]. split; [vm_compute; discriminate | reflexivity].
  - destruct (signup_then_login (E := demo_engine) (HB := demo_bcrypt_spec)
                em pw demo_env init
                [Logout (Some (js "s42")); Me None] demo_env_later)
      as (Hok & _ & Hstatus & Hcookie & Hstate & (u & _ & Hme) & Hwrong).
    + reflexivity.
    + vm_compute; discriminate.
    + reflexivity.
    + split; [exact Hok|]. split; [exact Hstatus|]. split; [exact Hcookie|].
      split; [reflexivity|]. split; [reflexivity|].
      assert (∀ u', users out.2 !! em = Some u' →
                bcrypt_compare (Bcrypt := demo_bcrypt) (js "wrongpassword")
                  (passwordHash u') = Some false) as Hrej
        by (intros u' [= <-]; reflexivity).
      exact (f_equal (λ p, status p.1)
               (Hwrong (js "wrongpassword") eq_refl Hrej)).
Defined.

Lemma signup_then_me_witness :
  let em := js "a@b.com" in
  let out := signup (B := demo_bcrypt) (E := demo_engine)
               (credentials em (js "longpassword")) demo_env init in
  status out.1 = 200
  ∧ ∃ sid u,
      cookie out.1 = SetSid sid
      ∧ users out.2 !! em = Some u
      ∧ me (Some sid) out.2 =
          {| status := 200;
             cookie := NoCookie;
             json := [prop "ok" (JBool true);
                      prop "email" (JStr em);
                      prop "id" (JStr (id u))] |}.
Proof.
  intros em out. split; [reflexivity|].
  destruct (signup_then_me (B := demo_bcrypt) (E := demo_engine)
              (credentials em (js "longpassword")) demo_env init)
    as (em' & pw' & sid & u & Hb & Hcookie & Hu & _ & _ & Hme);
    [reflexivity|].
  injection Hb as <- _. exists sid, u. split; [exact Hcookie|].
  split; [exact Hu | exact Hme].
Defined.



(** C1 as stated fails: [Signup("A@b.com", ...)] followed by
    [Signup("a@b.com", ...)] leaves two different accounts whose e-mails
    are equal once letter case is folded. *)
Lemma case_variants_are_two_accounts :
  let st := run (B := demo_bcrypt) (E := demo_engine)
              [Signup (credentials (js "A@b.com") (js "longpassword")) demo_env;
               Signup (credentials (js "a@b.com") (js "longpassword"))
                 demo_env_later]
              init in
  ∃ u1 u2,
    users st !! js "A@b.com" = Some u1
    ∧ users st !! js "a@b.com" = Some u2
    ∧ u1 ≠ u2
    ∧ spec_normalize (email u1) = spec_normalize (email u2).
Proof.
  intros st. eexists _, _.
  split; [vm_compute; reflexivity|]. split; [vm_compute; reflexivity|].
  split; [discriminate | reflexivity].
Qed.

Lemma one_account_per_email_witness :
  let st := run (B := demo_bcrypt) (E := demo_engine)
              [Signup (credentials (js "A@b.com") (js "longpassword")) demo_env;
               Signup (credentials (js "a@b.com") (js "longpassword"))
                 demo_env_later]
              init in
  reachable (B := demo_bcrypt) (E := demo_engine) st
  ∧ ∀ k u, users st !! k = Some u → email u = js "a@b.com" → k = js "a@b.com".
Proof.
  intros st.
  assert (reachable (B := demo_bcrypt) (E := demo_engine) st) as Hreach
    by apply reachable_run, reach_init.
  split; [exact Hreach|]. intros k u Hk Hmail.
  apply (one_account_per_email (B := demo_bcrypt) (E := demo_engine)
           st k (js "a@b.com") u
           (new_account (js "a@b.com") (js "$2b$12$longpassword")
              demo_env_later));
    [exact Hreach | exact Hk | vm_compute; reflexivity | exact Hmail].
Defined.

Lemma login_failures_differ_witness :
  let st := (signup (B := demo_bcrypt) (E := demo_engine)
               (credentials (js "a@b.com") (js "longpassword")) demo_env init).2 in
  let unknown := (login (B := demo_bcrypt) (E := demo_engine)
                    (credentials (js "x@y.com") (js "wrongpassword")) demo_env st).1 in
  let wrong := (login (B := demo_bcrypt) (E := demo_engine)
                  (credentials (js "a@b.com") (js "wrongpassword")) demo_env st).1 in
  users st !! js "x@y.com" = None
  ∧ is_Some (users st !! js "a@b.com")
  ∧ status unknown = 401 ∧ status wrong = 401
  ∧ unknown ≠ wrong.
Proof.
  intros st unknown wrong.
  split; [reflexivity|]. split; [by eexists|].
  destruct (login_failures_differ (B := demo_bcrypt) (E := demo_engine)
              (js "x@y.com") (js "a@b.com")
              (js "wrongpassword") (js "wrongpassword") demo_env demo_env st
              (new_account (js "a@b.com") (js "$2b$12$longpassword") demo_env))
    as (H1 & H2 & _ & _ & _ & Hne);
    try reflexivity.
  split; [exact H1|]. split; [exact H2 | exact Hne].
Defined.

Lemma createSid_space_bounded_witness :
  let ts := [createSid (E := demo_engine) 0; createSid (E := demo_engine) 1] in
  NoDup ts ∧ Forall (is_token (E := demo_engine)) ts
  ∧ Z.of_nat (length ts) ≤ unit_doubles.
Proof.
  intros ts.
  assert (NoDup ts) as Hnd
    by (apply (bool_decide_unpack _); vm_compute; exact I).
  assert (Forall (is_token (E := demo_engine)) ts) as Htok.
  { repeat constructor; [exists 0 | exists 1]; by split. }
  split; [exact Hnd|]. split; [exact Htok|].
  apply (createSid_space_bounded (E := demo_engine) ts Hnd Htok).
Defined.

(** * Further properties of the handlers *)

(** ** What every response looks like *)

Section Responses.

Context {B : Bcrypt} {E : Engine}.

Ltac handler_cases :=
  unfold signup, login, me, logout;
  repeat (case_match; simpl; try done).

(** X1.  A request that is not answered 200 has no effect: both stores are
    as before and no cookie is set or cleared. *)
Theorem failed_request_has_no_effect rq st :
  status (handle rq st).1 ≠ 200 →
  (handle rq st).2 = st ∧ cookie (handle rq st).1 = NoCookie.
Proof.
  destruct rq as [b e | b e | sid | sid]; simpl; handler_cases.
Qed.

(** X2.  Every response carries one of the codes 200, 400, 401, 409, 500
    and an [ok] flag, and the flag is [true] exactly when the code is
    200. *)
Theorem ok_flag_matches_status rq st :
  status (handle rq st).1 ∈ response_codes
  ∧ json_get "ok" (json (handle rq st).1)
    = Some (JBool (status (handle rq st).1 =? 200)).
Proof.
  destruct rq as [b e | b e | sid | sid]; simpl; handler_cases;
    (split; [set_solver | done]).
Qed.

(** X3.  The body of a response only has properties named [ok], [field],
    [message], [redirect], [email] or [id], and every string in it is one
    of the literals of the source, or stands under [email] and is the
    [email] field of an account in the users store, or stands under [id]
    and is the [id] field of such an account.  Nothing else of the stores
    is copied into a body. *)
Theorem response_body_is_public rq st :
  Forall (λ kv,
      kv.1 ∈ response_keys
      ∧ match kv.2 with
        | JBool _ => True
        | JStr s =>
            s ∈ js <$> ["email"; "password"; "Invalid email";
                        "Password too short"; "Email already registered";
                        "Server error"; "Missing fields";
                        "Invalid credentials"; "Not authenticated";
                        "/dashboard.html"]%string
            ∨ ∃ k u, users st !! k = Some u
                     ∧ (kv.1 = "email"%string ∧ s = email u
                        ∨ kv.1 = "id"%string ∧ s = id u)
        end)
    (json (handle rq st).1).
Proof.
  destruct rq as [b e | b e | sid | sid]; simpl; handler_cases;
    unfold invalid_email, password_too_short, already_registered,
      server_error, missing_fields, not_authenticated, failure, prop;
    simpl; rewrite ?Forall_cons, ?Forall_nil; simpl; repeat split;
    first [ by right; eexists _, _; split; [eassumption | left]
          | by right; eexists _, _; split; [eassumption | right]
          | apply (bool_decide_unpack _); vm_compute; exact I
          | left; apply (bool_decide_unpack _); vm_compute; exact I ].
Qed.

End Responses.

(** ** Login *)

Section LoginFacts.

Context {B : Bcrypt} {E : Engine}.

(** What a login answered 200 has done. *)
Lemma login_success_inv b e st :
  status (login b e st).1 = 200 →
  ∃ em pw u,
    b = credentials em pw
    ∧ truthy_str em = true
    ∧ users st !! em = Some u
    ∧ bcrypt_compare pw (passwordHash u) = Some true
    ∧ login b e st =
        (redirected (createSid (random e)),
         {| users := users st;
            sessions := <[createSid (random e) := em]> (sessions st) |}).
Proof.
  unfold login.
  destruct b as [[[em|] [pw|]]|]; simpl; try discriminate.
  destruct (truthy_str em) eqn:Hem; simpl; try discriminate.
  destruct (truthy_str pw) eqn:Hpw; simpl; try discriminate.
  destruct (users st !! em) as [u|] eqn:Hu; simpl; try discriminate.
  destruct (bcrypt_compare pw (passwordHash u)) as [[|]|] eqn:Hcmp; simpl;
    try discriminate.
  intros _. by exists em, pw, u.
Qed.

(** X4.  A login is answered 200 only if the e-mail has an account and
    bcrypt accepts the password against the hash stored in it; the login
    then leaves the users store as it was and adds one session for that
    e-mail under the new token. *)
Theorem login_requires_verified_password b e st :
  status (login b e st).1 = 200 →
  ∃ em pw u,
    b = credentials em pw
    ∧ users st !! em = Some u
    ∧ bcrypt_compare pw (passwordHash u) = Some true
    ∧ users (login b e st).2 = users st
    ∧ sessions (login b e st).2 = <[createSid (random e) := em]> (sessions st).
Proof.
  intros (em & pw & u & -> & _ & Hu & Hcmp & ->)%login_success_inv.
  by exists em, pw, u.
Qed.


(** X6.  When the bcrypt promise is rejected, signup and login answer
    500 ["Server error"] and leave both stores as they were: signup has
    stored no account and neither has created a session.  This holds for
    every signup that has passed its checks and for every login with
    non-empty fields for an e-mail that has an account. *)
Theorem rejected_promise_is_server_error em pw e st :
  (Regex.test email_re em = true →
   8 ≤ Z.of_nat (length pw) →
   users st !! em = None →
   bcrypt_hash pw 12 (salt e) = None →
   signup (credentials em pw) e st = (reply 500 server_error, st))
  ∧ (∀ u,
       truthy_str em = true →
       truthy_str pw = true →
       users st !! em = Some u →
       bcrypt_compare pw (passwordHash u) = None →
       login (credentials em pw) e st = (reply 500 server_error, st)).
Proof.
  split.
  - intros Hre Hlen Hfree Hhash. unfold signup, credentials. simpl.
    rewrite Hre, (email_re_nonempty _ Hre), (long_password_nonempty _ Hlen).
    replace (Z.of_nat (length pw) <? 8) with false by lia. simpl.
    by rewrite Hfree, Hhash.
  - intros u Hem Hpw Hu Hcmp. unfold login, credentials. simpl.
    by rewrite Hem, Hpw, Hu, Hcmp.
Qed.

End LoginFacts.

(** ** Sessions *)

Section SessionFacts.

Context {B : Bcrypt} {E : Engine}.

Lemma signup_failure_state b e st :
  status (signup b e st).1 ≠ 200 → (signup b e st).2 = st.
Proof. unfold signup. repeat (case_match; simpl; try done). Qed.

Lemma login_failure_state b e st :
  status (login b e st).1 ≠ 200 → (login b e st).2 = st.
Proof. unfold login. repeat (case_match; simpl; try done). Qed.



(** The answer of [me] for a session whose owner has an account. *)
Lemma me_of_session t em u st :
  truthy_str t = true → truthy_str em = true →
  sessions st !! t = Some em → users st !! em = Some u →
  me (Some t) st =
    {| status := 200;
       cookie := NoCookie;
       json := [prop "ok" (JBool true);
                prop "email" (JStr (email u));
                prop "id" (JStr (id u))] |}.
Proof.
  intros Ht Hem Hs Hu. unfold me. rewrite Hs. simpl.
  by rewrite Ht, Hem, Hu.
Qed.

(** A request other than a logout with [t] that does not mint [t] leaves
    the entry of [t] in the sessions store alone. *)
Lemma handle_session_kept rq st t :
  rq ≠ Logout (Some t) → minted_sid rq ≠ Some t →
  sessions (handle rq st).2 !! t = sessions st !! t.
Proof.
  intros Hlogout Hmint.
  destruct rq as [b e | b e | sid | sid]; simpl in *; try done.
  - destruct (status (signup b e st).1 =? 200) eqn:Hst.
    + apply Z.eqb_eq, signup_success_inv in Hst.
      destruct Hst as (em & pw & h & -> & Hre & Hlen & Hfree & Hhash).
      rewrite (signup_accepts _ _ _ _ _ Hre Hlen Hfree Hhash). simpl.
      apply lookup_insert_ne. congruence.
    + apply Z.eqb_neq in Hst. by rewrite (signup_failure_state _ _ _ Hst).
  - destruct (status (login b e st).1 =? 200) eqn:Hst.
    + apply Z.eqb_eq, login_success_inv in Hst.
      destruct Hst as (em & pw & u & -> & _ & _ & _ & ->). simpl.
      apply lookup_insert_ne. congruence.
    + apply Z.eqb_neq in Hst. by rewrite (login_failure_state _ _ _ Hst).
  - unfold logout. destruct sid as [t'|]; [|done].
    destruct (truthy_str t'); simpl; [|done].
    apply lookup_delete_ne. congruence.
Qed.




(** X13.  A token is stored without looking whether it is in use: when a
    signup or login answered 200 mints token [t], the session of [t] is
    from then on the one of that request's e-mail, whomever [t] named
    before, and [me] with [t] answers 200 for that account. *)
Theorem minted_token_names_requester rq st t :
  minted_sid rq = Some t →
  status (handle rq st).1 = 200 →
  ∃ em pw e u,
    (rq = Signup (credentials em pw) e ∨ rq = Login (credentials em pw) e)
    ∧ sessions (handle rq st).2 !! t = Some em
    ∧ users (handle rq st).2 !! em = Some u
    ∧ status (me (Some t) (handle rq st).2) = 200
    ∧ json_get "id" (json (me (Some t) (handle rq st).2)) = Some (JStr (id u)).
Proof.
  destruct rq as [b e | b e | sid | sid]; cbn [handle minted_sid];
    try done; intros [= <-] Hok.
  - destruct (signup_success_inv _ _ _ Hok)
      as (em & pw & h & -> & Hre & Hlen & Hfree & Hhash).
    rewrite (signup_accepts _ _ _ _ _ Hre Hlen Hfree Hhash). cbn [fst snd].
    exists em, pw, e, (new_account em h e).
    rewrite (me_of_session (createSid (random e)) em (new_account em h e));
      [| done | by apply email_re_nonempty
       | apply lookup_insert_eq | apply lookup_insert_eq].
    cbn [users sessions]. rewrite !lookup_insert_eq.
    repeat split; try done. by left.
  - destruct (login_success_inv _ _ _ Hok)
      as (em & pw & u & -> & Hem & Hu & _ & ->). cbn [fst snd].
    exists em, pw, e, u.
    rewrite (me_of_session (createSid (random e)) em u);
      [| done | done | apply lookup_insert_eq | done].
    cbn [users sessions]. rewrite lookup_insert_eq.
    repeat split; try done. by right.
Qed.

End SessionFacts.

(** ** Signup around its [await] *)

Section SignupAwait.

Context {B : Bcrypt} {E : Engine}.

(** Served without interruption, the two halves of the signup handler
    are the handler. *)
Lemma signup_split b e st :
  signup b e st =
    match signup_begin b st with
    | inl r => (r, st)
    | inr (em, pw) => signup_resume em (bcrypt_hash pw 12 (salt e)) e st
    end.
Proof.
  unfold signup, signup_begin, signup_resume.
  repeat (case_match; simpl; try done); congruence.
Qed.

(** X17.  Two signups for the same free e-mail that have both passed the
    checks before either resumes are both answered 200: the account is not
    looked up again after the [await], so the second resumption replaces
    the account the first one stored, and one account remains, holding the
    second hash.  Had the second request begun after the first had
    finished, its checks would have answered 409. *)
Theorem overlapping_signups_both_succeed em pw1 pw2 h1 h2 e1 e2 st :
  Regex.test email_re em = true →
  8 ≤ Z.of_nat (length pw1) →
  8 ≤ Z.of_nat (length pw2) →
  users st !! em = None →
  let out1 := signup_resume em (Some h1) e1 st in
  let out2 := signup_resume em (Some h2) e2 out1.2 in
  signup_begin (credentials em pw1) st = inr (em, pw1)
  ∧ signup_begin (credentials em pw2) st = inr (em, pw2)
  ∧ status out1.1 = 200
  ∧ status out2.1 = 200
  ∧ users out2.2 !! em = Some (new_account em h2 e2)
  ∧ size (users out2.2) = size (users out1.2)
  ∧ signup_begin (credentials em pw2) out1.2
    = inl (reply 409 already_registered).
Proof.
  intros Hre H1 H2 Hfree out1 out2.
  pose proof (email_re_nonempty _ Hre) as Hem.
  assert (∀ pw st', 8 ≤ Z.of_nat (length pw) →
            signup_begin (credentials em pw) st' =
              match users st' !! em with
              | Some _ => inl (reply 409 already_registered)
              | None => inr (em, pw)
              end) as Hbegin.
  { intros pw st' Hlen. unfold signup_begin, credentials. simpl.
    rewrite Hre, Hem, (long_password_nonempty _ Hlen).
    by replace (Z.of_nat (length pw) <? 8) with false by lia. }
  rewrite !Hbegin by done. rewrite Hfree. subst out1 out2. simpl.
  rewrite !lookup_insert_eq. repeat split.
  rewrite insert_insert_eq.
  rewrite !map_size_insert_None by done. done.
Qed.


End SignupAwait.

(** ** The further properties on concrete requests *)


Lemma failed_request_has_no_effect_witness :
  let rq := Login (credentials (js "a@b.com") (js "wrongpassword"))
              demo_env_later in
  let out := handle (B := demo_bcrypt) (E := demo_engine) rq demo_registered in
  status out.1 ≠ 200 ∧ out.2 = demo_registered ∧ cookie out.1 = NoCookie.
Proof.
  intros rq out.
  assert (status out.1 ≠ 200) as Hfail by (vm_compute; discriminate).
  split; [exact Hfail|].
  exact (failed_request_has_no_effect (B := demo_bcrypt) (E := demo_engine)
           rq demo_registered Hfail).
Defined.

Lemma login_requires_verified_password_witness :
  let b := credentials (js "a@b.com") (js "longpassword") in
  let out := login (B := demo_bcrypt) (E := demo_engine) b demo_env_later
               demo_registered in
  status out.1 = 200
  ∧ ∃ em pw u,
      b = credentials em pw
      ∧ users demo_registered !! em = Some u
      ∧ bcrypt_compare (Bcrypt := demo_bcrypt) pw (passwordHash u) = Some true
      ∧ users out.2 = users demo_registered
      ∧ sessions out.2
        = <[createSid (E := demo_engine) (random demo_env_later) := em]>
            (sessions demo_registered).
Proof.
  intros b out. split; [reflexivity|].
  apply (login_requires_verified_password (B := demo_bcrypt)
           (E := demo_engine) b demo_env_later demo_registered).
  reflexivity.
Defined.


Lemma rejected_promise_is_server_error_witness :
  let em := js "a@b.com" in
  let u := new_account em (js "$2b$12$longpassword") demo_env in
  let st := {| users := {[em := u]}; sessions := ∅ |} in
  (Regex.test email_re em = true
   ∧ 8 ≤ Z.of_nat (length (js "longpassword"))
   ∧ truthy_str (js "short") = true)
  ∧ signup (B := failing_bcrypt) (E := demo_engine)
      (credentials em (js "longpassword")) demo_env init
    = (reply 500 server_error, init)
  ∧ login (B := failing_bcrypt) (E := demo_engine)
      (credentials em (js "short")) demo_env st
    = (reply 500 server_error, st).
Proof.
  intros em u st.
  assert (Regex.test email_re em = true) as Hre by reflexivity.
  assert (8 ≤ Z.of_nat (length (js "longpassword"))) as Hlen
    by (vm_compute; discriminate).
  split; [split; [exact Hre | split; [exact Hlen | reflexivity]]|]. split.
  - apply (proj1 (rejected_promise_is_server_error (B := failing_bcrypt)
                    (E := demo_engine) em (js "longpassword") demo_env init)
             Hre Hlen); reflexivity.
  - apply (proj2 (rejected_promise_is_server_error (B := failing_bcrypt)
                    (E := demo_engine) em (js "short") demo_env st) u);
      reflexivity.
Defined.




(** A login whose random draw repeats the one of the signup mints
    ["s42"] again. *)
Lemma minted_token_names_requester_witness :
  let rq := Login (credentials (js "a@b.com") (js "longpassword")) demo_env in
  let out := handle (B := demo_bcrypt) (E := demo_engine) rq demo_registered in
  (minted_sid (E := demo_engine) rq = Some (js "s42")
   ∧ is_Some (sessions demo_registered !! js "s42")
   ∧ status out.1 = 200)
  ∧ sessions out.2 !! js "s42" = Some (js "a@b.com")
  ∧ status (me (Some (js "s42")) out.2) = 200.
Proof.
  intros rq out.
  split; [split; [reflexivity | split; [by eexists | reflexivity]]|].
  destruct (minted_token_names_requester (B := demo_bcrypt)
              (E := demo_engine) rq demo_registered (js "s42"))
    as (em & pw & e & u & Hrq & Hs & _ & Hme & _);
    [reflexivity | reflexivity |].
  destruct Hrq as [Hrq | Hrq]; [discriminate Hrq|].
  injection Hrq as <- _ _. split; [exact Hs | exact Hme].
Defined.

Lemma overlapping_signups_both_succeed_witness :
  let em := js "a@b.com" in
  let pw1 := js "longpassword" in
  let pw2 := js "otherpassword" in
  let h1 := js "$2b$12$longpassword" in
  let h2 := js "$2b$12$otherpassword" in
  let out1 := signup_resume (E := demo_engine) em (Some h1) demo_env init in
  let out2 := signup_resume (E := demo_engine) em (Some h2) demo_env_later
                out1.2 in
  (Regex.test email_re em = true
   ∧ 8 ≤ Z.of_nat (length pw1) ∧ 8 ≤ Z.of_nat (length pw2)
   ∧ users init !! em = None)
  ∧ signup_begin (credentials em pw1) init = inr (em, pw1)
  ∧ signup_begin (credentials em pw2) init = inr (em, pw2)
  ∧ status out1.1 = 200
  ∧ status out2.1 = 200
  ∧ users out2.2 !! em = Some (new_account em h2 demo_env_later).
Proof.
  intros em pw1 pw2 h1 h2 out1 out2.
  assert (Regex.test email_re em = true) as Hre by reflexivity.
  assert (8 ≤ Z.of_nat (length pw1)) as H1 by (vm_compute; discriminate).
  assert (8 ≤ Z.of_nat (length pw2)) as H2 by (vm_compute; discriminate).
  assert (users init !! em = None) as Hfree by reflexivity.
  split; [repeat split; assumption|].
  destruct (overlapping_signups_both_succeed (E := demo_engine)
              em pw1 pw2 h1 h2 demo_env demo_env_later init Hre H1 H2 Hfree)
    as (Hb1 & Hb2 & Hs1 & Hs2 & Hu & _).
  repeat split; assumption.
Defined.


(** * Arbitrary JSON bodies *)

(** ** The handlers on strings are the handlers of [Wire] *)

Section WireRefinement.

Context {B : Bcrypt} {E : Engine} {C : Wire.Coercion}.

Lemma wire_users_lookup st k :
  Wire.users (wire_state st) !! k = wire_user <$> users st !! k.
Proof. apply lookup_fmap. Qed.

Lemma wire_sessions_lookup st k :
  Wire.sessions (wire_state st) !! k = Wire.JString <$> sessions st !! k.
Proof. apply lookup_fmap. Qed.

Lemma signup_in_wire b e st :
  Wire.signup (wire_body b) e (wire_state st)
  = Some ((signup b e st).1, wire_state (signup b e st).2).
Proof.
  unfold Wire.signup, signup.
  destruct b as [[[em|] [pw|]]|]; simpl; try done.
  - destruct (truthy_str em); simpl; [|done].
    destruct (Regex.test email_re em); simpl; [|done].
    destruct (truthy_str pw); simpl; [|done].
    destruct (Z.of_nat (length pw) <? 8); simpl; [done|].
    rewrite lookup_fmap. destruct (users st !! em); simpl; [done|].
    destruct (bcrypt_hash pw 12 (salt e)); simpl; [|done].
    unfold wire_state. simpl. by rewrite !fmap_insert.
  - destruct (truthy_str em); simpl; [|done].
    by destruct (Regex.test email_re em).
Qed.

Lemma login_in_wire b e st :
  Wire.login (wire_body b) e (wire_state st)
  = Some ((login b e st).1, wire_state (login b e st).2).
Proof.
  unfold Wire.login, login.
  destruct b as [[[em|] [pw|]]|]; simpl; try done.
  - destruct (truthy_str em); simpl; [|done].
    destruct (truthy_str pw); simpl; [|done].
    rewrite lookup_fmap. destruct (users st !! em) as [u|]; simpl; [|done].
    destruct (bcrypt_compare pw (passwordHash u)) as [[|]|]; simpl; try done.
    unfold wire_state. simpl. by rewrite fmap_insert.
  - by rewrite orb_true_r.
Qed.

Lemma me_in_wire sid st :
  Wire.me sid (wire_state st) = Some (wire_answer (me sid st)).
Proof.
  unfold Wire.me, me. destruct sid as [t|]; [|done].
  rewrite wire_sessions_lookup.
  destruct (truthy_str t); simpl; [|done].
  destruct (sessions st !! t) as [em|]; simpl; [|done].
  destruct (truthy_str em); simpl; [|done].
  rewrite lookup_fmap. by destruct (users st !! em).
Qed.

Lemma logout_in_wire sid st :
  Wire.logout sid (wire_state st)
  = ((logout sid st).1, wire_state (logout sid st).2).
Proof.
  unfold Wire.logout, logout. destruct sid as [t|]; [|done].
  destruct (truthy_str t); [|done].
  unfold wire_state. simpl. by rewrite fmap_delete.
Qed.

End WireRefinement.

(** ** Validation at signup, on any JSON body *)

Section WireValidation.

Context {B : Bcrypt} {E : Engine} {C : Wire.Coercion}.


End WireValidation.



(** ** What the handlers do with fields that are not strings *)

Section WireFacts.

Context {B : Bcrypt} {E : Engine} {C : Wire.Coercion}.

(** A signup that sends a response either changes nothing and answers
    with an error code, or has passed every check with a string password
    and has stored the account and the session. *)
Lemma wire_signup_cases b e st r st' :
  Wire.signup b e st = Some (r, st') →
  (status r ≠ 200 ∧ cookie r = NoCookie ∧ st' = st)
  ∨ ∃ v pw address hash,
      Wire.b_email (Wire.body_or_empty b) = Some v
      ∧ Wire.b_password (Wire.body_or_empty b) = Some (Wire.JString pw)
      ∧ Wire.to_boolean v = true
      ∧ Wire.to_string v = Some address
      ∧ Regex.test email_re address = true
      ∧ 8 ≤ Z.of_nat (length pw)
      ∧ Wire.users st !! address = None
      ∧ bcrypt_hash pw 12 (salt e) = Some hash
      ∧ r = redirected (createSid (random e))
      ∧ st' = {| Wire.users := <[address := wire_account v hash e]> (Wire.users st);
                 Wire.sessions :=
                   <[createSid (random e) := v]> (Wire.sessions st) |}.
Proof.
  unfold Wire.signup.
  destruct (Wire.b_email _) as [v|]; [|intros [= <- <-]; by left].
  destruct (Wire.to_boolean v) eqn:Hv; simpl; [|intros [= <- <-]; by left].
  destruct (Wire.to_string v) as [address|] eqn:Haddr; simpl; [|done].
  destruct (Regex.test email_re address) eqn:Hre; simpl;
    [|intros [= <- <-]; by left].
  destruct (Wire.b_password _) as [password|]; [|intros [= <- <-]; by left].
  destruct (Wire.to_boolean password); simpl; [|intros [= <- <-]; by left].
  destruct (Wire.get_length password) as [len|] eqn:Hlen; simpl; [|done].
  destruct (Wire.less_than_8 len) as [[|]|] eqn:Hshort; simpl;
    [intros [= <- <-]; by left | | done].
  destruct (Wire.users st !! address) eqn:Hfree; [intros [= <- <-]; by left|].
  destruct (Wire.hash_json password 12 (salt e)) as [hash|] eqn:Hhash;
    [|intros [= <- <-]; by left].
  intros [= <- <-]. right.
  destruct password as [| | |pw| |]; try discriminate. simpl in *.
  injection Hlen as <-. simpl in Hshort. injection Hshort as Hshort.
  exists v, pw, address, hash. repeat split; try done. lia.
Qed.

(** The same for login. *)
Lemma wire_login_cases b e st r st' :
  Wire.login b e st = Some (r, st') →
  (status r ≠ 200 ∧ cookie r = NoCookie ∧ st' = st)
  ∨ ∃ v pw address u,
      Wire.b_email (Wire.body_or_empty b) = Some v
      ∧ Wire.b_password (Wire.body_or_empty b) = Some (Wire.JString pw)
      ∧ Wire.to_boolean v = true
      ∧ Wire.to_string v = Some address
      ∧ Wire.users st !! address = Some u
      ∧ bcrypt_compare pw (Wire.passwordHash u) = Some true
      ∧ r = redirected (createSid (random e))
      ∧ st' = {| Wire.users := Wire.users st;
                 Wire.sessions :=
                   <[createSid (random e) := v]> (Wire.sessions st) |}.
Proof.
  unfold Wire.login.
  destruct (Wire.b_email _) as [v|]; simpl; [|intros [= <- <-]; by left].
  destruct (Wire.to_boolean v) eqn:Hv; simpl; [|intros [= <- <-]; by left].
  destruct (Wire.b_password _) as [password|]; simpl;
    [|intros [= <- <-]; by left].
  destruct (Wire.to_boolean password); simpl; [|intros [= <- <-]; by left].
  destruct (Wire.to_string v) as [address|] eqn:Haddr; simpl; [|done].
  destruct (Wire.users st !! address) as [u|] eqn:Hu;
    [|intros [= <- <-]; by left].
  destruct (Wire.compare_json password (Wire.passwordHash u)) as [[|]|]
    eqn:Hcmp; try (intros [= <- <-]; by left).
  intros [= <- <-]. right.
  destruct password as [| | |pw| |]; try discriminate. simpl in *.
  by exists v, pw, address, u.
Qed.

(** X7.  Login answers 400 exactly when the e-mail or the password is
    falsy, and the falsy fields are the missing ones and [null], [false],
    the numbers [0], [-0] and [NaN], and the empty string: a field [0] or
    [false] counts as missing. *)
Theorem login_400_iff_falsy b e st :
  ((∃ r st', Wire.login b e st = Some (r, st') ∧ status r = 400)
   ↔ Wire.truthy (Wire.b_email (Wire.body_or_empty b)) = false
     ∨ Wire.truthy (Wire.b_password (Wire.body_or_empty b)) = false)
  ∧ (∀ v, Wire.truthy v = false
          ↔ v = None
            ∨ v = Some Wire.JNull
            ∨ v = Some (Wire.JBoolean false)
            ∨ v = Some (Wire.JString [])
            ∨ ∃ bits, v = Some (Wire.JNumber bits)
                      ∧ (Z.land bits 0x7FFFFFFFFFFFFFFF = 0
                         ∨ Wire.is_nan bits = true)).
Proof.
  split.
  - split.
    + intros (r & st' & Hout & Hcode).
      destruct (Wire.truthy (Wire.b_email _)) eqn:Hmail; [|by left].
      destruct (Wire.truthy (Wire.b_password _)) eqn:Hpass; [|by right].
      exfalso. revert Hout. unfold Wire.login. rewrite Hmail, Hpass. simpl.
      revert Hmail Hpass.
      destruct (Wire.b_email _) as [v|]; [|done].
      destruct (Wire.b_password _) as [pw|]; [|done]. intros _ _.
      destruct (Wire.to_string v); simpl; [|done].
      destruct (Wire.users st !! _) as [u|];
        [|intros [= <- <-]; discriminate Hcode].
      destruct (Wire.compare_json pw (Wire.passwordHash u)) as [[|]|];
        intros [= <- <-]; discriminate Hcode.
    + intros Hfalsy. exists (reply 400 missing_fields), st.
      split; [|done]. unfold Wire.login.
      by destruct Hfalsy as [-> | ->]; rewrite ?orb_true_r.
  - intros v. split.
    + destruct v as [[|[|]|bits|[|c s]| |]|]; simpl; try done; eauto 10.
      intros Hfalsy. do 4 right. exists bits. split; [done|].
      apply negb_false_iff, orb_true_iff in Hfalsy as [Hz | Hn]; [left | by right].
      by apply Z.eqb_eq.
    + intros [-> | [-> | [-> | [-> | (bits & -> & Hbits)]]]]; try done.
      simpl. apply negb_false_iff, orb_true_iff.
      destruct Hbits as [Hz | Hn]; [left | by right]. by apply Z.eqb_eq.
Qed.

(** X21.  A password that is not a string is never accepted: whatever
    JSON value it is, neither signup nor login answers 200, and neither
    writes to the stores. *)
Theorem nonstring_password_never_accepted b e st :
  field_string (Wire.b_password (Wire.body_or_empty b)) = None →
  (∀ r st', Wire.signup b e st = Some (r, st') → status r ≠ 200 ∧ st' = st)
  ∧ (∀ r st', Wire.login b e st = Some (r, st') → status r ≠ 200 ∧ st' = st).
Proof.
  intros Hpw. split; intros r st' Hout.
  - destruct (wire_signup_cases _ _ _ _ _ Hout)
      as [(? & _ & ?) | (v & pw & a & h & _ & Hpass & _)]; [done|].
    by rewrite Hpass in Hpw.
  - destruct (wire_login_cases _ _ _ _ _ Hout)
      as [(? & _ & ?) | (v & pw & a & u & _ & Hpass & _)]; [done|].
    by rewrite Hpass in Hpw.
Qed.

(** X22.  The e-mail is stored as it was sent.  When signup answers 200,
    the password was a string of at least 8 code units and the e-mail a
    truthy JSON value whose text passed the pattern and had no account;
    the account is stored under that text but keeps the value itself in
    [email] (an array stays an array), the session belongs to the value,
    and [me] with the new cookie reports the value. *)
Theorem signup_stores_email_as_sent b e st r st' :
  Wire.signup b e st = Some (r, st') →
  status r = 200 →
  ∃ v pw address hash,
    Wire.b_email (Wire.body_or_empty b) = Some v
    ∧ Wire.b_password (Wire.body_or_empty b) = Some (Wire.JString pw)
    ∧ Wire.to_string v = Some address
    ∧ Regex.test email_re address = true
    ∧ 8 ≤ Z.of_nat (length pw)
    ∧ Wire.users st !! address = None
    ∧ bcrypt_hash pw 12 (salt e) = Some hash
    ∧ cookie r = SetSid (createSid (random e))
    ∧ Wire.users st' !! address = Some (wire_account v hash e)
    ∧ Wire.sessions st' !! createSid (random e) = Some v
    ∧ Wire.me (Some (createSid (random e))) st' =
        Some {| Wire.a_status := 200;
                Wire.a_json :=
                  [("ok"%string, Wire.JBoolean true);
                   ("email"%string, v);
                   ("id"%string, Wire.JString (js (pretty (date_now e))))] |}.
Proof.
  intros Hout Hok.
  destruct (wire_signup_cases _ _ _ _ _ Hout)
    as [(? & _) | (v & pw & a & h & Hv & Hpw & Htrue & Ha & Hre & Hlen
                    & Hfree & Hhash & -> & ->)]; [done|].
  exists v, pw, a, h. simpl. rewrite !lookup_insert_eq.
  repeat split; try done.
  unfold Wire.truthy. rewrite Htrue, Ha. simpl. by rewrite lookup_insert_eq.
Qed.

Lemma wire_next_wellformed rq st :
  wire_wellformed st → wire_wellformed (Wire.next rq st).
Proof.
  intros [Husers Hsessions].
  assert (∀ v address u hash e' pw,
            Wire.to_boolean v = true →
            Wire.to_string v = Some address →
            Regex.test email_re address = true →
            Wire.users st !! address = None →
            8 ≤ Z.of_nat (length pw) →
            bcrypt_hash pw 12 (salt e') = Some hash →
            u = wire_account v hash e' →
            wire_wellformed
              {| Wire.users := <[address := u]> (Wire.users st);
                 Wire.sessions :=
                   <[createSid (random e') := v]> (Wire.sessions st) |})
    as Hsignup.
  { intros v a u h e' pw Hv Ha Hre Hfree Hlen Hhash ->. split; simpl.
    - intros k u. rewrite lookup_insert. case_decide.
      + intros [= <-]. subst k. simpl. repeat split; try done.
        by exists pw, e'.
      + apply Husers.
    - intros sid w. rewrite lookup_insert. case_decide.
      + intros [= <-]. subst sid. repeat split; try done.
        exists a. split; [done|]. by rewrite lookup_insert_eq.
      + intros (? & ? & k & ? & Hk)%Hsessions. repeat split; try done.
        exists k. split; [done|]. rewrite lookup_insert.
        by case_decide. }
  destruct rq as [b e | b e | sid | sid]; simpl; try done.
  - destruct (Wire.signup b e st) as [[r st']|] eqn:Hout; simpl; [|done].
    destruct (wire_signup_cases _ _ _ _ _ Hout)
      as [(_ & _ & ->) | (v & pw & a & h & _ & _ & Hv & Ha & Hre & Hlen
                          & Hfree & Hhash & _ & ->)]; [done|].
    by eapply Hsignup.
  - destruct (Wire.login b e st) as [[r st']|] eqn:Hout; simpl; [|done].
    destruct (wire_login_cases _ _ _ _ _ Hout)
      as [(_ & _ & ->) | (v & pw & a & u & _ & _ & Hv & Ha & Hu & _ & _ & ->)];
      [done|].
    split; simpl; [done|].
    intros sid w. rewrite lookup_insert. case_decide.
    + intros [= <-]. subst sid. repeat split; try done.
      exists a. by rewrite Hu.
    + apply Hsessions.
  - unfold Wire.logout. destruct sid as [t|]; [|done].
    destruct (truthy_str t); simpl; [|done]. split; simpl; [done|].
    intros sid w. rewrite lookup_delete. case_decide; [done|].
    apply Hsessions.
Qed.

(** X20.  Whatever JSON the requests carry, in every reachable state
    each account is stored under the text of its [email] value, that
    text passed the signup pattern, its [passwordHash] is what
    [bcrypt.hash] returned, with 12 rounds, for a string password of at
    least 8 code units, and its [id] and [createdAt] are clock readings
    of one request; and each session has a non-empty token and belongs
    to a truthy value whose text is the key of an account. *)
Theorem wire_stores_wellformed st :
  Wire.reachable st →
  (∀ k u, Wire.users st !! k = Some u →
     Wire.to_string (Wire.email u) = Some k
     ∧ Regex.test email_re k = true
     ∧ ∃ pw e,
         8 ≤ Z.of_nat (length pw)
         ∧ bcrypt_hash pw 12 (salt e) = Some (Wire.passwordHash u)
         ∧ Wire.id u = js (pretty (date_now e))
         ∧ Wire.createdAt u = iso_now e)
  ∧ (∀ sid v, Wire.sessions st !! sid = Some v →
       truthy_str sid = true
       ∧ Wire.to_boolean v = true
       ∧ ∃ k, Wire.to_string v = Some k ∧ is_Some (Wire.users st !! k)).
Proof.
  induction 1 as [|st rq _ IH]; [|by apply wire_next_wellformed].
  split; intros ? ?; simpl; by rewrite lookup_empty.
Qed.



End WireFacts.

(** ** The properties of [Wire] on concrete requests *)

Lemma demo_array_signup :
  Wire.signup (B := demo_bcrypt) (E := demo_engine) (C := demo_coercion)
    (Some (Wire.Body (Some array_email)
             (Some (Wire.JString (js "longpassword")))))
    demo_env Wire.init
  = Some (redirected (js "s42"), demo_array_registered).
Proof. reflexivity. Qed.

Lemma demo_array_registered_reachable :
  Wire.reachable (B := demo_bcrypt) (E := demo_engine) (C := demo_coercion)
    demo_array_registered.
Proof. apply Wire.reach_next, Wire.reach_init. Qed.

Lemma nonstring_password_never_accepted_witness :
  let b := wire_credentials (js "a@b.com") number_1234567 in
  field_string (Wire.b_password (Wire.body_or_empty b)) = None
  ∧ (∀ r st',
       Wire.signup (B := demo_bcrypt) (E := demo_engine) (C := demo_coercion)
         b demo_env Wire.init = Some (r, st') →
       status r ≠ 200 ∧ st' = Wire.init)
  ∧ (∀ r st',
       Wire.login (B := demo_bcrypt) (E := demo_engine) (C := demo_coercion)
         b demo_env Wire.init = Some (r, st') →
       status r ≠ 200 ∧ st' = Wire.init).
Proof.
  intros b. split; [reflexivity|].
  apply (nonstring_password_never_accepted (B := demo_bcrypt)
           (E := demo_engine) (C := demo_coercion) b demo_env Wire.init).
  reflexivity.
Defined.

(** The array [["a@b.com"]] as e-mail: the account is stored under
    ["a@b.com"] and keeps the array. *)
Lemma signup_stores_email_as_sent_witness :
  let b := Some (Wire.Body (Some array_email)
                   (Some (Wire.JString (js "longpassword")))) in
  (Wire.signup (B := demo_bcrypt) (E := demo_engine) (C := demo_coercion)
     b demo_env Wire.init = Some (redirected (js "s42"), demo_array_registered)
   ∧ status (redirected (js "s42")) = 200)
  ∧ Wire.email <$> Wire.users demo_array_registered !! js "a@b.com"
    = Some array_email
  ∧ Wire.me (C := demo_coercion) (Some (js "s42")) demo_array_registered =
      Some {| Wire.a_status := 200;
              Wire.a_json :=
                [("ok"%string, Wire.JBoolean true);
                 ("email"%string, array_email);
                 ("id"%string, Wire.JString (js "1700000000000"))] |}.
Proof.
  intros b. split; [split; reflexivity|].
  destruct (signup_stores_email_as_sent (B := demo_bcrypt) (E := demo_engine)
              (C := demo_coercion) b demo_env Wire.init
              (redirected (js "s42")) demo_array_registered
              demo_array_signup eq_refl)
    as (v & pw & address & hash & Hv & _ & Ha & _ & _ & _ & _ & _ & Hu & _ & Hme).
  injection Hv as <-.
  assert (Some address = Some (js "a@b.com")) as [= ->]
    by (rewrite <- Ha; reflexivity).
  split; [rewrite Hu; reflexivity | exact Hme].
Defined.

Lemma wire_stores_wellformed_witness :
  Wire.users demo_array_registered !! js "a@b.com"
  = Some (wire_account array_email (js "$2b$12$longpassword") demo_env)
  ∧ Wire.to_string (C := demo_coercion) array_email = Some (js "a@b.com")
  ∧ (∀ sid v, Wire.sessions demo_array_registered !! sid = Some v →
       truthy_str sid = true
       ∧ Wire.to_boolean v = true
       ∧ ∃ k, Wire.to_string (C := demo_coercion) v = Some k
              ∧ is_Some (Wire.users demo_array_registered !! k)).
Proof.
  assert (Wire.users demo_array_registered !! js "a@b.com"
          = Some (wire_account array_email (js "$2b$12$longpassword") demo_env))
    as Hu by reflexivity.
  split; [exact Hu|].
  destruct (wire_stores_wellformed (B := demo_bcrypt) (E := demo_engine)
              (C := demo_coercion) demo_array_registered
              demo_array_registered_reachable) as [Husers Hsessions].
  split; [exact (proj1 (Husers _ _ Hu)) | exact Hsessions].
Defined.


(** * The event loop *)

Section EventLoopFacts.

Context {B : Bcrypt} {E : Engine}.



(** Served without interruption, the two halves of the login handler are
    the handler. *)
Lemma login_split b e st :
  login b e st =
    match login_begin b st with
    | inl r => (r, st)
    | inr (em, pw, u) =>
        login_resume em (bcrypt_compare pw (passwordHash u)) e st
    end.
Proof.
  unfold login, login_begin, login_resume.
  repeat (case_match; simpl; try done); congruence.
Qed.



Lemma take_head t l : take t (t :: l) = Some l.
Proof. simpl. by rewrite decide_True. Qed.

(** A request served without interruption does what [handle] does. *)
Lemma uninterrupted_is_handle rq st w :
  serve (uninterrupted rq st) (Server st w)
  = Some (Server (handle rq st).2 w).
Proof.
  destruct rq as [b e | b e | sid | sid]; simpl; try done.
  - rewrite signup_split.
    destruct (signup_begin b st) as [r | [em pw]] eqn:Hbegin; simpl;
      rewrite Hbegin; simpl; [done|].
    by rewrite decide_True.
  - rewrite login_split.
    destruct (login_begin b st) as [r | [[em pw] u]] eqn:Hbegin; simpl;
      rewrite Hbegin; simpl; [done|].
    by rewrite decide_True.
Qed.

Lemma serve_app evs1 evs2 s :
  serve (evs1 ++ evs2) s = s' ← serve evs1 s; serve evs2 s'.
Proof.
  revert s. induction evs1 as [|ev evs1 IH]; intros s; simpl; [done|].
  destruct (turn ev s) as [[r s1]|]; simpl; [apply IH | done].
Qed.

(** Every state that requests served one at a time can reach is a state
    of the event loop, with no handler suspended. *)
Lemma reachable_served st : reachable st → served (Server st []).
Proof.
  induction 1 as [|st rq _ [evs Hevs]]; [by exists []|].
  exists (evs ++ uninterrupted rq st).
  rewrite serve_app, Hevs. simpl. apply uninterrupted_is_handle.
Qed.


(** No turn removes an account. *)
Lemma turn_keeps_accounts ev s r s' k :
  turn ev s = Some (r, s') →
  is_Some (users (stores s) !! k) → is_Some (users (stores s') !! k).
Proof.
  destruct ev as [b | em pw e | b | em pw u e | sid | sid]; simpl.
  - destruct (signup_begin b (stores s)) as [r0 | [em pw]];
      by intros [= <- <-].
  - destruct (take _ _) as [rest|]; simpl; [|done]. intros [= <- <-]. simpl.
    destruct (bcrypt_hash pw 12 (salt e)); simpl; [|done].
    intros Hk. rewrite lookup_insert. by case_decide.
  - destruct (login_begin b (stores s)) as [r0 | [[em pw] u]];
      by intros [= <- <-].
  - destruct (take _ _) as [rest|]; simpl; [|done]. intros [= <- <-]. simpl.
    by destruct (bcrypt_compare pw (passwordHash u)) as [[|]|].
  - by intros [= <- <-].
  - intros [= <- <-]. simpl. unfold logout. destruct sid as [t|]; [|done].
    by destruct (truthy_str t).
Qed.







(** X8.  An e-mail that has an account keeps one: however the turns of
    later requests interleave, no turn removes an account (a resumed
    signup may replace it), so a login for the e-mail is never again told
    that the e-mail is unknown. *)
Theorem registered_stays_registered evs s s' em :
  serve evs s = Some s' →
  is_Some (users (stores s) !! em) →
  is_Some (users (stores s') !! em)
  ∧ ∀ pw, login_begin (credentials em pw) (stores s')
          ≠ inl (reply 401 (failure (Some "email") "Invalid credentials")).
Proof.
  intros Hserve Hacc.
  assert (is_Some (users (stores s') !! em)) as [u Hu].
  { revert s Hserve Hacc. induction evs as [|ev evs IH]; intros s; simpl.
    - by intros [= <-].
    - destruct (turn ev s) as [[r s1]|] eqn:Hturn; simpl; [|done].
      intros Hserve Hacc. apply (IH s1); [done|].
      by eapply turn_keeps_accounts. }
  split; [by exists u|]. intros pw. unfold login_begin, credentials. simpl.
  rewrite Hu. by destruct (truthy_str em), (truthy_str pw).
Qed.


End EventLoopFacts.

(** ** The event loop on concrete requests *)



Lemma registered_stays_registered_witness :
  let s := Server demo_registered
             [Hashing (js "a@b.com") (js "otherpassword")] in
  let evs := [SignupResumed (js "a@b.com") (js "otherpassword") demo_env_later;
              LogoutServed (Some (js "s42"))] in
  ∃ s', serve (B := demo_bcrypt) (E := demo_engine) evs s = Some s'
        ∧ is_Some (users (stores s) !! js "a@b.com")
        ∧ is_Some (users (stores s') !! js "a@b.com").
Proof.
  intros s evs.
  destruct (serve (B := demo_bcrypt) (E := demo_engine) evs s) as [s'|]
    eqn:Hserve; [|vm_compute in Hserve; discriminate].
  exists s'. split; [reflexivity|].
  assert (is_Some (users (stores s) !! js "a@b.com")) as Hacc by (by eexists).
  split; [exact Hacc|].
  exact (proj1 (registered_stays_registered (B := demo_bcrypt)
                  (E := demo_engine) evs s s' (js "a@b.com") Hserve Hacc)).
Defined.

